(** * magick-server: the [/convert] request handler

    A shallow embedding of [convertHandler] (main.go): the query-parameter
    blocks, the ImageMagick page loop and the Zip assembly.  The Go standard
    library ([strconv], [strings], [archive/zip], [io]) and the ImageMagick
    binding are external to the repository; they enter as interfaces
    (type classes), and the handler is a program over them in a small
    state-and-early-return monad whose state records every engine call. *)

From Stdlib Require Import ZArith NArith Floats DecimalString DecimalPos DecimalN Ascii.
From stdpp Require Import base strings gmap list.

Open Scope Z_scope.

(** ** Go values *)

(** [[]byte]. *)
Abbreviation bytes := (list Byte.byte).

(** [url.Values]: [map[string][]string]. *)
Abbreviation Values := (gmap string (list string)).

(** [func (v Values) Get(key string) string]: the first value of the key, the
    empty string when the key is absent or has no value. *)
Definition Get (v : Values) (key : string) : string :=
  match v !! key with
  | Some (x :: _) => x
  | _ => ""
  end.

(** [uint] and [int] are 64 bits wide on the platforms the server is built
    for. *)
Definition uint_of_uint64 (q : N) : N := (q mod 2 ^ 64)%N.

Definition int_wrap (z : Z) : Z := (z + 2 ^ 63) mod 2 ^ 64 - 2 ^ 63.

(** [page++] on an [int]. *)
Definition int_incr (page : Z) : Z := int_wrap (page + 1).

(** *** [strings.ToUpper] on ASCII input *)

Definition is_ascii (c : ascii) : bool := (N_of_ascii c <? 128)%N.

Definition upper_ascii (c : ascii) : ascii :=
  let n := N_of_ascii c in
  if ((97 <=? n) && (n <=? 122))%N then ascii_of_N (n - 32) else c.

Fixpoint string_forall (p : ascii → bool) (s : string) : bool :=
  match s with
  | EmptyString => true
  | String c s' => p c && string_forall p s'
  end.

Fixpoint string_map (f : ascii → ascii) (s : string) : string :=
  match s with
  | EmptyString => EmptyString
  | String c s' => String (f c) (string_map f s')
  end.

(** ** The Go standard library, as far as the handler uses it *)

(** [strconv.ParseFloat(v, 64)], [strconv.ParseUint(v, 10, 64)] and
    [strings.ToUpper].  [None] stands for [err != nil]; the handler drops the
    value returned next to an error.  The two laws are the documented
    behaviour the handler's callers can rely on: the empty string is a syntax
    error for [ParseFloat], and [ToUpper] maps [a]..[z] to [A]..[Z] and
    nothing else on a string of ASCII bytes. *)
Class GoLib := {
  strconv_ParseFloat : string → option float;
  strconv_ParseUint : string → option N;
  strings_ToUpper : string → string;
  strconv_ParseFloat_empty : strconv_ParseFloat "" = None;
  strings_ToUpper_ascii : ∀ s,
    string_forall is_ascii s = true → strings_ToUpper s = string_map upper_ascii s
}.

(** ** HTTP responses *)

(** What [render.JSON] and [render.Data] are given: a JSON object with string
    members, or the raw bytes of the Zip buffer.  The Zip buffer is kept as
    the sequence of named entries it encodes. *)
Definition entry : Type := string * bytes.

Inductive Body :=
| JSON (members : list (string * string))
| Data (archive : list entry).

Record Response := mkResponse { status : Z; body : Body }.

Definition StatusOK : Z := 200.
Definition StatusBadRequest : Z := 400.
Definition StatusInternalServerError : Z := 500.

(** [render.Status(r, code); render.JSON(w, r, map[string]any{"error": msg})]. *)
Definition errorResponse (code : Z) (msg : string) : Response :=
  mkResponse code (JSON [("error", msg)]).

(** ** Parameters *)

(** [formatExtensionMap]. *)
Definition formatExtensionMap : gmap string string :=
  {[ "JPEG" := "jpg"; "PNG" := "png"; "TIFF" := "tiff" ]}.

(** [formatExtensionMap[format]]: a missing key reads as the empty string. *)
Definition formatExtension (format : string) : string :=
  default "" (formatExtensionMap !! format).

(** [type layoutType string]. *)
Definition layoutType : Type := string.
Definition layoutTypeLandscape : layoutType := "LANDSCAPE".
Definition layoutTypePortrait : layoutType := "PORTRAIT".
Definition layoutTypeKeep : layoutType := "KEEP".

(** The four locals the parameter blocks of [convertHandler] leave behind. *)
Record Config := mkConfig {
  density : float;
  quality : N;
  format : string;
  layout : layoutType
}.

Definition defaultConfig : Config :=
  mkConfig 300%float 85%N "JPEG" layoutTypeKeep.

Section Resolver.
Context {lib : GoLib}.

(** Lines 196-209. *)
Definition parseDensity (q : Values) : Response + float :=
  let v := Get q "density" in
  if decide (v = "") then inr 300%float
  else match strconv_ParseFloat v with
       | None => inl (errorResponse StatusBadRequest "invalid density")
       | Some d => inr d
       end.

(** Lines 211-224. *)
Definition parseQuality (q : Values) : Response + N :=
  let v := Get q "quality" in
  if decide (v = "") then inr 85%N
  else match strconv_ParseUint v with
       | None => inl (errorResponse StatusBadRequest "invalid compression quality")
       | Some n => inr (uint_of_uint64 n)
       end.

(** Lines 226-239. *)
Definition parseFormat (q : Values) : Response + string :=
  let v := Get q "format" in
  if decide (v = "") then inr "JPEG"
  else
    let v := strings_ToUpper v in
    match formatExtensionMap !! v with
    | None => inl (errorResponse StatusBadRequest "invalid output format")
    | Some _ => inr v
    end.

(** Lines 241-254. *)
Definition parseLayout (q : Values) : Response + layoutType :=
  let v := Get q "layout" in
  if decide (v = "") then inr layoutTypeKeep
  else
    let v := strings_ToUpper v in
    if bool_decide (v ≠ layoutTypeLandscape) && bool_decide (v ≠ layoutTypePortrait)
       && bool_decide (v ≠ layoutTypeKeep)
    then inl (errorResponse StatusBadRequest "invalid output layout")
    else inr v.

(** Lines 196-254 in order: the first block that rejects its parameter
    answers the request. *)
Definition resolve (q : Values) : Response + Config :=
  match parseDensity q with
  | inl resp => inl resp
  | inr d =>
    match parseQuality q with
    | inl resp => inl resp
    | inr n =>
      match parseFormat q with
      | inl resp => inl resp
      | inr f =>
        match parseLayout q with
        | inl resp => inl resp
        | inr l => inr (mkConfig d n f l)
        end
      end
    end
  end.
End Resolver.

(** ** The rasterization engine and the Zip writer *)

(** The calls of [imagick.MagickWand] the handler makes, on the image a wand
    holds.  [None] and [false] stand for [err != nil].  [ReadImageBlob] decodes
    at the resolution the wand was given by [SetResolution]; the iterator
    ([ResetIterator], [NextImage]) walks the decoded images front to back.
    The one law is ImageMagick's: a rotation by a quarter turn exchanges the
    width and the height. *)
Class Imagick := {
  Image : Type;
  imagick_SetResolution : float → float → bool;
  imagick_ReadImageBlob : float → float → bytes → option (list Image);
  imagick_MergeImageLayers : Image → Image;
  imagick_SetImageCompressionQuality : Image → N → option Image;
  imagick_SetImageFormat : Image → string → option Image;
  imagick_GetImageWidth : Image → N;
  imagick_GetImageHeight : Image → N;
  imagick_RotateImage : Image → float → option Image;
  imagick_GetImageBlob : Image → option bytes;
  imagick_RotateImage_quarter : ∀ i i',
    imagick_RotateImage i (-90)%float = Some i' →
    imagick_GetImageWidth i' = imagick_GetImageHeight i ∧
    imagick_GetImageHeight i' = imagick_GetImageWidth i
}.

(** [zip.Writer] over a [bytes.Buffer]: whether [Create], the entry's [Write]
    and [Close] return a nil error, given the entries written so far. *)
Class ZipWriter := {
  zip_Create : list entry → string → bool;
  zip_Write : list entry → string → bytes → bool;
  zip_Close : list entry → bool
}.

(** ** Calls, in the order they happen *)

(** [err == nil] for a call whose value is [None] on an error. *)
Definition isOk {A} (r : option A) : bool :=
  match r with
  | Some _ => true
  | None => false
  end.

Definition handle : Type := nat.
Bind Scope nat_scope with handle.

Inductive Event :=
| EvReadAll (ok : bool)
| EvNewMagickWand (mw : handle)
| EvSetResolution (mw : handle) (x y : float) (ok : bool)
| EvReadImageBlob (mw : handle) (ok : bool)
| EvResetIterator (mw : handle)
| EvNextImage (mw : handle) (more : bool)
| EvGetImage (mw mwi : handle)
| EvMergeImageLayers (mwi mwm : handle)
| EvSetImageCompressionQuality (mwm : handle) (q : N) (ok : bool)
| EvSetImageFormat (mwm : handle) (f : string) (ok : bool)
| EvNewPixelWand
| EvRotateImage (mwm : handle) (degrees : float) (ok : bool)
| EvGetImageBlob (mwm : handle) (ok : bool)
| EvZipCreate (name : string) (ok : bool)
| EvZipWrite (name : string) (ok : bool)
| EvZipClose (ok : bool)
| EvDestroy (h : handle).

(** What outlives a request: the calls made so far and the next unused wand
    identifier. *)
Record World := mkWorld { trace : list Event; fresh : handle }.

(** One activation of the handler: the world and the stack of deferred
    [Destroy] calls, most recent on top. *)
Record Frame := mkFrame { world : World; deferred : list handle }.

(** A statement of the handler: it either runs through with a value or
    returns from the handler with a response. *)
Definition M (A : Type) : Type := Frame → (Response + A) * Frame.

#[export] Instance M_ret : MRet M := λ A a f, (inr a, f).

#[export] Instance M_bind : MBind M := λ A B k m f,
  match m f with
  | (inl resp, f') => (inl resp, f')
  | (inr a, f') => k a f'
  end.

(** [render.Status; render.JSON(... "error": msg); return]. *)
Definition respond {A} (code : Z) (msg : string) : M A :=
  λ f, (inl (errorResponse code msg), f).

Definition lift {A} (r : Response + A) : M A := λ f, (r, f).

Definition emit (e : Event) : M unit :=
  λ f, (inr (), mkFrame (mkWorld (trace (world f) ++ [e]) (fresh (world f))) (deferred f)).

Definition alloc : M handle :=
  λ f, (inr (fresh (world f)),
        mkFrame (mkWorld (trace (world f)) (S (fresh (world f)))) (deferred f)).

(** [defer h.Destroy()]. *)
Definition defer_Destroy (h : handle) : M unit :=
  λ f, (inr (), mkFrame (world f) (h :: deferred f)).

(** The deferred calls run when the handler returns, last deferred first. *)
Definition run_deferred (f : Frame) : World :=
  mkWorld (trace (world f) ++ map EvDestroy (deferred f)) (fresh (world f)).

(** [Sprintf("%04d", page)]: decimal, zero-padded to four columns, the sign
    counted in. *)
Definition digits (n : N) : string := NilZero.string_of_uint (N.to_uint n).

Fixpoint zeros (n : nat) : string :=
  match n with
  | O => ""
  | S n' => String "0" (zeros n')
  end.

Definition pad0 (width : nat) (s : string) : string :=
  zeros (width - String.length s) +:+ s.

Definition Sprintf_04d (page : Z) : string :=
  if page <? 0 then "-" +:+ pad0 3 (digits (Z.to_N (- page)))
  else pad0 4 (digits (Z.to_N page)).

(** [fmt.Sprintf("%04d.%s", page, formatExtensionMap[format])]. *)
Definition entryName (page : Z) (format : string) : string :=
  Sprintf_04d page +:+ "." +:+ formatExtension format.

(** A request, as far as the handler reads it: the query and what
    [io.ReadAll(r.Body)] returns. *)
Record Request := mkRequest { URL_Query : Values; Body_ReadAll : option bytes }.

Section Handler.
Context {lib : GoLib} {engine : Imagick} {zip : ZipWriter}.

(** A wand is a handle and the image it currently holds. *)
Definition Wand : Type := handle * Image.

Definition ReadAll (r : Request) : M (option bytes) :=
  emit (EvReadAll (isOk (Body_ReadAll r)));; mret (Body_ReadAll r).

Definition NewMagickWand : M handle :=
  mw ← alloc; emit (EvNewMagickWand mw);; mret mw.

Definition SetResolution (mw : handle) (x y : float) : M bool :=
  let ok := imagick_SetResolution x y in
  emit (EvSetResolution mw x y ok);; mret ok.

Definition ReadImageBlob (mw : handle) (x y : float) (blob : bytes)
  : M (option (list Image)) :=
  let r := imagick_ReadImageBlob x y blob in
  emit (EvReadImageBlob mw (isOk r));; mret r.

Definition GetImage (mw : handle) (img : Image) : M Wand :=
  mwi ← alloc; emit (EvGetImage mw mwi);; mret (mwi, img).

Definition MergeImageLayers (mwi : Wand) : M Wand :=
  mwm ← alloc; emit (EvMergeImageLayers mwi.1 mwm);;
  mret (mwm, imagick_MergeImageLayers mwi.2).

Definition SetImageCompressionQuality (mwm : Wand) (q : N) : M (option Wand) :=
  let r := imagick_SetImageCompressionQuality mwm.2 q in
  emit (EvSetImageCompressionQuality mwm.1 q (isOk r));;
  mret (pair mwm.1 <$> r).

Definition SetImageFormat (mwm : Wand) (f : string) : M (option Wand) :=
  let r := imagick_SetImageFormat mwm.2 f in
  emit (EvSetImageFormat mwm.1 f (isOk r));;
  mret (pair mwm.1 <$> r).

Definition GetImageWidth (mwm : Wand) : N := imagick_GetImageWidth mwm.2.
Definition GetImageHeight (mwm : Wand) : N := imagick_GetImageHeight mwm.2.

(** [mwm.RotateImage(imagick.NewPixelWand(), degrees)]. *)
Definition RotateImage (mwm : Wand) (degrees : float) : M (option Wand) :=
  emit EvNewPixelWand;;
  let r := imagick_RotateImage mwm.2 degrees in
  emit (EvRotateImage mwm.1 degrees (isOk r));;
  mret (pair mwm.1 <$> r).

Definition GetImageBlob (mwm : Wand) : M (option bytes) :=
  let r := imagick_GetImageBlob mwm.2 in
  emit (EvGetImageBlob mwm.1 (isOk r));; mret r.

Definition zipCreate (zw : list entry) (name : string) : M bool :=
  let ok := zip_Create zw name in
  emit (EvZipCreate name ok);; mret ok.

Definition zipWrite (zw : list entry) (name : string) (out : bytes) : M bool :=
  let ok := zip_Write zw name out in
  emit (EvZipWrite name ok);; mret ok.

Definition zipClose (zw : list entry) : M bool :=
  let ok := zip_Close zw in
  emit (EvZipClose ok);; mret ok.

(** Lines 325-361: the [switch layout]. *)
Definition forceLayout (layout : layoutType) (mwm : Wand) : M Wand :=
  if decide (layout = layoutTypeLandscape) then
    let width := GetImageWidth mwm in
    let height := GetImageHeight mwm in
    if (width <? height)%N then
      r ← RotateImage mwm (-90)%float;
      match r with
      | None => respond StatusInternalServerError "failed to rotate image"
      | Some mwm' => mret mwm'
      end
    else mret mwm
  else if decide (layout = layoutTypePortrait) then
    let width := GetImageWidth mwm in
    let height := GetImageHeight mwm in
    if (height <? width)%N then
      r ← RotateImage mwm (-90)%float;
      match r with
      | None => respond StatusInternalServerError "failed to rotate image"
      | Some mwm' => mret mwm'
      end
    else mret mwm
  else mret mwm.

(** Lines 299-388: the body of the page loop. *)
Definition convertPage (cfg : Config) (mw : handle) (page : Z) (img : Image)
    (zw : list entry) : M (list entry) :=
  mwi ← GetImage mw img;
  defer_Destroy mwi.1;;
  mwm ← MergeImageLayers mwi;
  defer_Destroy mwm.1;;
  r ← SetImageCompressionQuality mwm (quality cfg);
  match r with
  | None => respond StatusInternalServerError "failed to set compression quality"
  | Some mwm =>
    r ← SetImageFormat mwm (format cfg);
    match r with
    | None => respond StatusInternalServerError "failed to set output format"
    | Some mwm =>
      mwm ← forceLayout (layout cfg) mwm;
      r ← GetImageBlob mwm;
      match r with
      | None => respond StatusInternalServerError "failed to set output format"
      | Some out =>
        let name := entryName page (format cfg) in
        ok ← zipCreate zw name;
        if negb ok
        then respond StatusInternalServerError "failed to create new Zip archive entry"
        else
          ok ← zipWrite zw name out;
          if negb ok
          then respond StatusInternalServerError "failed to write image into Zip archive"
          else mret (zw ++ [(name, out)])
      end
    end
  end.

(** Line 298: [for page := 0; mw.NextImage(); page++], over the images the
    iterator still has to visit. *)
Fixpoint pageLoop (cfg : Config) (mw : handle) (page : Z) (imgs : list Image)
    (zw : list entry) : M (list entry) :=
  match imgs with
  | [] => emit (EvNextImage mw false);; mret zw
  | img :: rest =>
    emit (EvNextImage mw true);;
    zw' ← convertPage cfg mw page img zw;
    pageLoop cfg mw (int_incr page) rest zw'
  end.

(** Lines 256-402, after the parameters are resolved. *)
Definition pipeline (cfg : Config) (r : Request) : M Response :=
  rd ← ReadAll r;
  match rd with
  | None => respond StatusInternalServerError "failed to read request body"
  | Some blob =>
    mw ← NewMagickWand;
    defer_Destroy mw;;
    ok ← SetResolution mw (density cfg) (density cfg);
    if negb ok then respond StatusInternalServerError "failed to set density"
    else
      rd ← ReadImageBlob mw (density cfg) (density cfg) blob;
      match rd with
      | None => respond StatusInternalServerError "failed to read image"
      | Some imgs =>
        emit (EvResetIterator mw);;
        zw ← pageLoop cfg mw 0 imgs [];
        ok ← zipClose zw;
        if negb ok then respond StatusInternalServerError "failed to close Zip archive"
        else mret (mkResponse StatusOK (Data zw))
      end
  end.

(** The function [convertHandler] returns, top to bottom. *)
Definition handlerBody (r : Request) : M Response :=
  cfg ← lift (resolve (URL_Query r));
  pipeline cfg r.

(** One call of the handler: a fresh frame, the body, then the deferred
    calls. *)
Definition convertHandler (r : Request) (w : World) : Response * World :=
  let '(res, f) := handlerBody r (mkFrame w []) in
  (match res with inl resp => resp | inr resp => resp end, run_deferred f).
End Handler.

(** ** A small instance of the interfaces

    Enough of a library and of an engine to run the handler on closed
    requests: numbers are plain decimal digit strings, a document is a
    sequence of pages of two bytes each (width, height), and one chosen call
    can be made to fail. *)

Fixpoint parse_digits (acc : N) (s : string) : option N :=
  match s with
  | EmptyString => Some acc
  | String c s' =>
    let n := N_of_ascii c in
    if ((48 <=? n) && (n <=? 57))%N then parse_digits (acc * 10 + (n - 48))%N s'
    else None
  end.

Definition decimal_ParseUint (s : string) : option N :=
  match s with
  | EmptyString => None
  | _ => match parse_digits 0 s with
         | Some n => if (n <? 2 ^ 64)%N then Some n else None
         | None => None
         end
  end.

Definition decimal_ParseFloat (s : string) : option float :=
  match decimal_ParseUint s with
  | Some n => if (n <? 2 ^ 53)%N then Some (PrimFloat.of_uint63 (Uint63.of_Z (Z.of_N n)))
              else None
  | None => None
  end.

Definition decimalLib : GoLib.
Proof.
  refine {| strconv_ParseFloat := decimal_ParseFloat;
            strconv_ParseUint := decimal_ParseUint;
            strings_ToUpper := string_map upper_ascii |}.
  - reflexivity.
  - intros; reflexivity.
Defined.

Inductive Fault :=
| NoFault
| FailSetResolution
| FailReadImageBlob
| FailSetImageCompressionQuality
| FailSetImageFormat
| FailRotateImage
| FailGetImageBlob
| FailZipCreate
| FailZipWrite
| FailZipClose.

#[export] Instance Fault_eq_dec : EqDecision Fault.
Proof. solve_decision. Defined.

Record Raster := mkRaster {
  raster_width : N;
  raster_height : N;
  raster_quality : N;
  raster_format : string
}.

Fixpoint decodePages (blob : bytes) : option (list Raster) :=
  match blob with
  | [] => Some []
  | w :: h :: rest =>
    cons (mkRaster (Byte.to_N w) (Byte.to_N h) 0 "") <$> decodePages rest
  | _ => None
  end.

Definition encodePage (i : Raster) : option bytes :=
  match Byte.of_N (raster_width i), Byte.of_N (raster_height i) with
  | Some w, Some h => Some [w; h]
  | _, _ => None
  end.

Definition unless (fault here : Fault) {A} (r : option A) : option A :=
  if decide (fault = here) then None else r.

Definition rasterEngine (fault : Fault) : Imagick.
Proof.
  refine {|
    Image := Raster;
    imagick_SetResolution := λ _ _, bool_decide (fault ≠ FailSetResolution);
    imagick_ReadImageBlob := λ _ _ blob,
      unless fault FailReadImageBlob
        (match blob with [] => None | _ => decodePages blob end);
    imagick_MergeImageLayers := λ i, i;
    imagick_SetImageCompressionQuality := λ i q,
      unless fault FailSetImageCompressionQuality
        (Some (mkRaster (raster_width i) (raster_height i) q (raster_format i)));
    imagick_SetImageFormat := λ i f,
      unless fault FailSetImageFormat
        (Some (mkRaster (raster_width i) (raster_height i) (raster_quality i) f));
    imagick_GetImageWidth := raster_width;
    imagick_GetImageHeight := raster_height;
    imagick_RotateImage := λ i _,
      unless fault FailRotateImage
        (Some (mkRaster (raster_height i) (raster_width i) (raster_quality i)
                 (raster_format i)));
    imagick_GetImageBlob := λ i, unless fault FailGetImageBlob (encodePage i)
  |}.
  intros i i'. unfold unless. destruct (decide (fault = FailRotateImage)).
  - discriminate.
  - intros [= <-]. split; reflexivity.
Defined.

Definition bufferZip (fault : Fault) : ZipWriter := {|
  zip_Create := λ _ _, bool_decide (fault ≠ FailZipCreate);
  zip_Write := λ _ _ _, bool_decide (fault ≠ FailZipWrite);
  zip_Close := λ _, bool_decide (fault ≠ FailZipClose)
|}.

(** The handler over the small instance. *)
Definition runHandler (fault : Fault) (r : Request) (w : World) : Response * World :=
  convertHandler (lib := decimalLib) (engine := rasterEngine fault) (zip := bufferZip fault) r w.

Definition emptyWorld : World := mkWorld [] 0%nat.

Definition twoPages : bytes := [Byte.x05; Byte.x08; Byte.x04; Byte.x04].

(** ** Reading a trace *)

(** A call that returned an error. *)
Definition failed (e : Event) : bool :=
  match e with
  | EvReadAll ok | EvSetResolution _ _ _ ok | EvReadImageBlob _ ok
  | EvSetImageCompressionQuality _ _ ok | EvSetImageFormat _ _ ok
  | EvRotateImage _ _ ok | EvGetImageBlob _ ok
  | EvZipCreate _ ok | EvZipWrite _ ok | EvZipClose ok => negb ok
  | _ => false
  end.

(** The message the handler renders next to each failing call. *)
Definition failureMessage (e : Event) : string :=
  match e with
  | EvReadAll _ => "failed to read request body"
  | EvSetResolution _ _ _ _ => "failed to set density"
  | EvReadImageBlob _ _ => "failed to read image"
  | EvSetImageCompressionQuality _ _ _ => "failed to set compression quality"
  | EvSetImageFormat _ _ _ => "failed to set output format"
  | EvRotateImage _ _ _ => "failed to rotate image"
  | EvGetImageBlob _ _ => "failed to set output format"
  | EvZipCreate _ _ => "failed to create new Zip archive entry"
  | EvZipWrite _ _ => "failed to write image into Zip archive"
  | EvZipClose _ => "failed to close Zip archive"
  | _ => ""
  end.

Definition isDestroy (e : Event) : bool :=
  match e with EvDestroy _ => true | _ => false end.

(** The wands a sequence of calls creates, oldest first. *)
Fixpoint acquired (t : list Event) : list handle :=
  match t with
  | [] => []
  | EvNewMagickWand h :: t' | EvGetImage _ h :: t' | EvMergeImageLayers _ h :: t' =>
    h :: acquired t'
  | _ :: t' => acquired t'
  end.

(** The frame after the calls [ops], when every wand created is deferred for
    destruction at once. *)
Definition after (f : Frame) (ops : list Event) : Frame :=
  mkFrame (mkWorld (trace (world f) ++ ops) (length (acquired ops) + fresh (world f))%nat)
          (rev (acquired ops) ++ deferred f).

(** The calls one request adds to the trace. *)
Definition requestTrace {lib : GoLib} {engine : Imagick} {zip : ZipWriter} (r : Request) (w : World)
    : list Event :=
  drop (length (trace w)) (trace (convertHandler r w).2).


(** The names an archive lists, in order. *)
Definition entryNames (resp : Response) : list string :=
  match body resp with
  | Data zw => zw.*1
  | JSON _ => []
  end.

(** Equality of two parameter values up to case, as the handler decides it:
    equality after [strings.ToUpper]. *)
Definition equalUpper {lib : GoLib} (a b : string) : Prop :=
  strings_ToUpper a = strings_ToUpper b.

Definition recognized : list string := ["density"; "quality"; "format"; "layout"].

(** No call of [ops] returned an error. *)
Definition clean (ops : list Event) : Prop := Forall (λ e, failed e = false) ops.

(** How a run of statements ends: through, with no failing call; or by a
    return from the handler right after the one failing call, with status 500
    and that call's message. *)
Definition Outcome {A} (r : Response + A) (ops : list Event) : Prop :=
  match r with
  | inr _ => clean ops
  | inl resp =>
    ∃ pre e, ops = pre ++ [e] ∧ clean pre ∧ failed e = true ∧
             resp = errorResponse StatusInternalServerError (failureMessage e)
  end.

(** The statements [m], started in frame [f], end with [r] after the calls
    [ops]. *)
Definition runs {A} (m : M A) (f : Frame) (r : Response + A) (ops : list Event) : Prop :=
  m f = (r, after f ops).

(** What a working call of a request with configuration [cfg] may be: never a
    [Destroy] (those are deferred); [SetResolution] with the density on both
    axes; the quality and the format as configured; a rotation only by -90
    degrees and only under LANDSCAPE or PORTRAIT. *)
Definition configuredCall (cfg : Config) (e : Event) : Prop :=
  match e with
  | EvSetResolution _ x y _ => x = density cfg ∧ y = density cfg
  | EvSetImageCompressionQuality _ q _ => q = quality cfg
  | EvSetImageFormat _ f _ => f = format cfg
  | EvRotateImage _ degrees _ =>
    degrees = (-90)%float ∧
    (layout cfg = layoutTypeLandscape ∨ layout cfg = layoutTypePortrait)
  | EvDestroy _ => False
  | _ => True
  end.

(** What the handler hands to [render]. *)
Definition rendered (res : Response + Response) : Response :=
  match res with inl resp => resp | inr resp => resp end.

(** The entry names the loop gives to [n] pages, counting from [page]. *)
Fixpoint pageNames (format : string) (page : Z) (n : nat) : list string :=
  match n with
  | O => []
  | S n' => entryName page format :: pageNames format (int_incr page) n'
  end.

(** The accepted format names with the key of [formatExtensionMap] and the
    extension each resolves to. *)
Definition canonicalFormats : list (string * string * string) :=
  [("jpeg", "JPEG", "jpg"); ("png", "PNG", "png"); ("tiff", "TIFF", "tiff")].

(** The accepted layout names with the [layoutType] each resolves to. *)
Definition canonicalLayouts : list (string * layoutType) :=
  [("landscape", layoutTypeLandscape); ("portrait", layoutTypePortrait);
   ("keep", layoutTypeKeep)].

(** ** The page as a value

    What lines 303-364 make of one decoded image when every call succeeds,
    written without the wands: the image is flattened, given the quality and
    the format, turned if the layout asks for it, and serialized.  [None]
    when one of the calls fails. *)
Definition layoutImage {engine : Imagick} (layout : layoutType) (i : Image)
    : option Image :=
  if decide (layout = layoutTypeLandscape) then
    if (imagick_GetImageWidth i <? imagick_GetImageHeight i)%N
    then imagick_RotateImage i (-90)%float else Some i
  else if decide (layout = layoutTypePortrait) then
    if (imagick_GetImageHeight i <? imagick_GetImageWidth i)%N
    then imagick_RotateImage i (-90)%float else Some i
  else Some i.

Definition pageImage {engine : Imagick} (cfg : Config) (img : Image) : option Image :=
  match imagick_SetImageCompressionQuality (imagick_MergeImageLayers img) (quality cfg) with
  | None => None
  | Some i1 =>
    match imagick_SetImageFormat i1 (format cfg) with
    | None => None
    | Some i2 => layoutImage (layout cfg) i2
    end
  end.

Definition pageBlob {engine : Imagick} (cfg : Config) (img : Image) : option bytes :=
  match pageImage cfg img with
  | None => None
  | Some i => imagick_GetImageBlob i
  end.

(** Checks on the printed page number, run over a range of pages: the number
    takes four columns; it sorts before the number of the next page. *)
Definition fourDigits (i : Z) : bool :=
  Nat.eqb (String.length (Sprintf_04d i)) 4.

Definition beforeNext (i : Z) : bool :=
  match String.compare (Sprintf_04d i) (Sprintf_04d (i + 1)) with
  | Lt => true
  | _ => false
  end.

(** The small engine without faults, except that it decodes the empty input
    to a document of no pages. *)
Definition lenientEngine : Imagick := {|
  Image := Raster;
  imagick_SetResolution := imagick_SetResolution (Imagick := rasterEngine NoFault);
  imagick_ReadImageBlob := λ _ _ blob, decodePages blob;
  imagick_MergeImageLayers := imagick_MergeImageLayers (Imagick := rasterEngine NoFault);
  imagick_SetImageCompressionQuality :=
    imagick_SetImageCompressionQuality (Imagick := rasterEngine NoFault);
  imagick_SetImageFormat := imagick_SetImageFormat (Imagick := rasterEngine NoFault);
  imagick_GetImageWidth := imagick_GetImageWidth (Imagick := rasterEngine NoFault);
  imagick_GetImageHeight := imagick_GetImageHeight (Imagick := rasterEngine NoFault);
  imagick_RotateImage := imagick_RotateImage (Imagick := rasterEngine NoFault);
  imagick_GetImageBlob := imagick_GetImageBlob (Imagick := rasterEngine NoFault);
  imagick_RotateImage_quarter :=
    imagick_RotateImage_quarter (Imagick := rasterEngine NoFault)
|}.

(** Equality of two strings up to the case of the ASCII letters, every other
    byte compared as it is.  The names "jpeg", "png" and "tiff" have no letter
    with a case variant outside ASCII, so this is what a case-insensitive
    comparison with one of them comes to. *)
Definition equalFold (a b : string) : Prop :=
  string_map upper_ascii a = string_map upper_ascii b.

(** [strings.ToUpper] on the ASCII letters and on the letter dotless i
    (U+0131, in UTF-8 the bytes 196 177), whose upper case is [I]; every other
    byte is kept. *)
Fixpoint upper_dotless_i (s : string) : string :=
  match s with
  | EmptyString => EmptyString
  | String c s' =>
    match s' with
    | EmptyString => String (upper_ascii c) EmptyString
    | String c' s'' =>
      if ((N_of_ascii c =? 196) && (N_of_ascii c' =? 177))%N
      then String "I" (upper_dotless_i s'')
      else String (upper_ascii c) (upper_dotless_i s')
    end
  end.

(** The small library with that [ToUpper]. *)
Definition dotlessLib : GoLib.
Proof.
  refine {| strconv_ParseFloat := decimal_ParseFloat;
            strconv_ParseUint := decimal_ParseUint;
            strings_ToUpper := upper_dotless_i |}.
  - reflexivity.
  - intros s. induction s as [|c s IH]; [reflexivity|].
    intros Hs. apply andb_prop in Hs as [Hc Hs]. specialize (IH Hs).
    destruct s as [|c' s'']; [reflexivity|].
    change (upper_dotless_i (String c (String c' s''))) with
      (if ((N_of_ascii c =? 196) && (N_of_ascii c' =? 177))%N
       then String "I" (upper_dotless_i s'')
       else String (upper_ascii c) (upper_dotless_i (String c' s''))).
    unfold is_ascii in Hc. apply N.ltb_lt in Hc.
    replace (N_of_ascii c =? 196)%N with false by (symmetry; apply N.eqb_neq; lia).
    cbn [andb]. rewrite IH. reflexivity.
Defined.

(** The format value [t], dotless i, [ff]: five bytes. *)
Definition dotless_tiff : string :=
  String "t" (String (ascii_of_N 196) (String (ascii_of_N 177) "ff")).

(** * Properties *)

(** ** Query values *)

Lemma Get_insert_eq (q : Values) k v vs : Get (<[k := v :: vs]> q) k = v.
Proof. unfold Get. by rewrite lookup_insert_eq. Qed.

Lemma Get_insert_ne (q : Values) k k' vs : k ≠ k' → Get (<[k := vs]> q) k' = Get q k'.
Proof. intros. unfold Get. by rewrite lookup_insert_ne. Qed.

Lemma Get_delete_eq (q : Values) k : Get (delete k q) k = "".
Proof. unfold Get. by rewrite lookup_delete_eq. Qed.

Lemma Get_delete_ne (q : Values) k k' : k ≠ k' → Get (delete k q) k' = Get q k'.
Proof. intros. unfold Get. by rewrite lookup_delete_ne. Qed.

Lemma Get_empty_value (q : Values) k vs k' :
  Get (<[k := "" :: vs]> q) k' = Get (delete k q) k'.
Proof.
  destruct (decide (k = k')) as [->|Hne].
  - by rewrite Get_insert_eq, Get_delete_eq.
  - by rewrite Get_insert_ne, Get_delete_ne.
Qed.

Section ResolverFacts.
Context {lib : GoLib}.

Lemma resolve_Get (q q' : Values) :
  (∀ k, Get q k = Get q' k) → resolve q = resolve q'.
Proof.
  intros E. unfold resolve, parseDensity, parseQuality, parseFormat, parseLayout.
  by rewrite !E.
Qed.

Lemma ToUpper_jpeg : strings_ToUpper "jpeg" = "JPEG".
Proof. by rewrite strings_ToUpper_ascii. Qed.

Lemma ToUpper_png : strings_ToUpper "png" = "PNG".
Proof. by rewrite strings_ToUpper_ascii. Qed.

Lemma ToUpper_tiff : strings_ToUpper "tiff" = "TIFF".
Proof. by rewrite strings_ToUpper_ascii. Qed.

Lemma formatExtensionMap_Some (v ext : string) :
  formatExtensionMap !! v = Some ext →
  (v = "JPEG" ∧ ext = "jpg") ∨ (v = "PNG" ∧ ext = "png") ∨ (v = "TIFF" ∧ ext = "tiff").
Proof.
  unfold formatExtensionMap. intros E.
  destruct (decide (v = "JPEG")) as [->|]; [left; split; [done|] |].
  { vm_compute in E. congruence. }
  destruct (decide (v = "PNG")) as [->|]; [right; left; split; [done|] |].
  { vm_compute in E. congruence. }
  destruct (decide (v = "TIFF")) as [->|]; [right; right; split; [done|] |].
  { vm_compute in E. congruence. }
  rewrite !lookup_insert_ne in E by done. by rewrite lookup_singleton_ne in E.
Qed.
End ResolverFacts.

Section Runs.
Context {lib : GoLib} {engine : Imagick} {zip : ZipWriter}.

Lemma acquired_app t1 t2 : acquired (t1 ++ t2) = acquired t1 ++ acquired t2.
Proof. induction t1 as [|[] t1 IH]; simpl; by rewrite ?IH. Qed.

Lemma after_app f ops1 ops2 : after (after f ops1) ops2 = after f (ops1 ++ ops2).
Proof.
  unfold after; simpl.
  rewrite acquired_app, rev_app_distr, length_app, <- !app_assoc.
  f_equal. f_equal. lia.
Qed.

Ltac exec :=
  unfold convertPage, forceLayout, GetImage, MergeImageLayers,
    SetImageCompressionQuality, SetImageFormat, RotateImage, GetImageBlob,
    zipCreate, zipWrite, GetImageWidth, GetImageHeight,
    respond, emit, alloc, defer_Destroy, mbind, M_bind, mret, M_ret; simpl.

Ltac branch :=
  match goal with
  | |- context [decide ?P] => destruct (decide P)
  | |- context [(?a <? ?b)%N] => destruct (a <? b)%N eqn:?
  | |- context [isOk ?x] => destruct x eqn:?
  | |- context [zip_Create ?a ?b] => destruct (zip_Create a b) eqn:?
  | |- context [zip_Write ?a ?b ?c] => destruct (zip_Write a b c) eqn:?
  end; simpl.

Lemma Outcome_last {A} (ops : list Event) (resp : Response) :
  ops ≠ [] → clean (List.removelast ops) → failed (List.last ops EvNewPixelWand) = true →
  resp = errorResponse StatusInternalServerError (failureMessage (List.last ops EvNewPixelWand)) →
  @Outcome A (inl resp) ops.
Proof.
  intros Hne Hc Hf ->. exists (List.removelast ops), (List.last ops EvNewPixelWand).
  split; [by apply app_removelast_last|]. done.
Qed.

Ltac outcome :=
  first
    [ apply Outcome_last; simpl;
      [discriminate | unfold clean; repeat constructor | reflexivity | reflexivity]
    | simpl; unfold clean; repeat constructor ].

Lemma convertPage_runs cfg mw page img zw f :
  ∃ r ops,
    runs (convertPage cfg mw page img zw) f r ops ∧
    Forall (configuredCall cfg) ops ∧
    Outcome r ops ∧
    acquired ops = [fresh (world f); S (fresh (world f))] ∧
    (∀ zw', r = inr zw' → ∃ out, zw' = zw ++ [(entryName page (format cfg), out)]).
Proof.
  unfold runs. exec.
  repeat branch.
  all: rewrite <- ?app_assoc; simpl.
  all: match goal with
       | |- ∃ r ops, (?R, mkFrame (mkWorld (_ ++ ?OPS) _) _) = _ ∧ _ => exists R, OPS
       end; split; [reflexivity|].
  all: split; [repeat (constructor; [simpl; auto|]); constructor|].
  all: split; [outcome|].
  all: split; [reflexivity|].
  all: intros zw' E; first [discriminate E | injection E as <-; eexists; reflexivity].
Qed.

Lemma convertPage_result cfg mw mw' page img zw f f' :
  (convertPage cfg mw page img zw f).1 = (convertPage cfg mw' page img zw f').1.
Proof. exec. repeat branch; reflexivity. Qed.

Lemma Outcome_app {A} (r : Response + A) ops1 ops2 :
  clean ops1 → Outcome r ops2 → Outcome r (ops1 ++ ops2).
Proof.
  intros Hc. destruct r as [resp|a]; simpl.
  - intros (pre & e & -> & Hpre & He & ->).
    exists (ops1 ++ pre), e. rewrite app_assoc. repeat split; try done.
    by apply Forall_app.
  - intros. by apply Forall_app.
Qed.

Lemma pageLoop_cons cfg mw page img rest zw f :
  pageLoop cfg mw page (img :: rest) zw f =
  match convertPage cfg mw page img zw (after f [EvNextImage mw true]) with
  | (inl resp, f') => (inl resp, f')
  | (inr zw', f') => pageLoop cfg mw (int_incr page) rest zw' f'
  end.
Proof. reflexivity. Qed.

Lemma pageLoop_runs cfg mw imgs : ∀ page zw f,
  ∃ r ops,
    runs (pageLoop cfg mw page imgs zw) f r ops ∧
    Forall (configuredCall cfg) ops ∧
    Outcome r ops ∧
    acquired ops = seq (fresh (world f)) (length (acquired ops)).
Proof.
  induction imgs as [|img rest IH]; intros page zw f.
  - exists (inr zw), [EvNextImage mw false]. split; [reflexivity|].
    split; [by repeat constructor|]. split; [by repeat constructor|]. reflexivity.
  - destruct (convertPage_runs cfg mw page img zw (after f [EvNextImage mw true]))
      as (r1 & ops1 & Hr1 & Hin1 & Ho1 & Hacq1 & _).
    unfold runs in *. rewrite pageLoop_cons, Hr1, after_app.
    destruct r1 as [resp|zw'].
    + exists (inl resp), ([EvNextImage mw true] ++ ops1).
      split; [reflexivity|]. split; [by constructor|].
      split; [apply Outcome_app; [by repeat constructor|done]|].
      simpl. rewrite Hacq1. reflexivity.
    + destruct (IH (int_incr page) zw' (after f ([EvNextImage mw true] ++ ops1)))
        as (r2 & ops2 & Hr2 & Hin2 & Ho2 & Hacq2).
      exists r2, (([EvNextImage mw true] ++ ops1) ++ ops2).
      split; [by rewrite Hr2, after_app|].
      split; [apply Forall_app; split; [by constructor|done]|].
      split.
      { apply Outcome_app; [|done]. apply Forall_app. split; [by repeat constructor|done]. }
      simpl in Hacq1, Hacq2. rewrite Hacq1 in Hacq2. simpl in Hacq2.
      rewrite !acquired_app. simpl. rewrite Hacq1. simpl. by do 2 f_equal.
Qed.

Ltac exec_pipeline :=
  unfold pipeline, ReadAll, NewMagickWand, SetResolution, ReadImageBlob, zipClose,
    respond, emit, alloc, defer_Destroy, mbind, M_bind, mret, M_ret; simpl.

Ltac pick_ops :=
  rewrite <- ?app_assoc; simpl;
  match goal with
  | |- ∃ r ops, (?R, mkFrame (mkWorld (_ ++ ?OPS) _) _) = _ ∧ _ => exists R, OPS
  end; split; [reflexivity|].

Lemma pipeline_runs cfg r f :
  ∃ res ops,
    runs (pipeline cfg r) f res ops ∧
    Forall (configuredCall cfg) ops ∧
    Outcome res ops ∧
    acquired ops = seq (fresh (world f)) (length (acquired ops)) ∧
    (∀ resp, res = inr resp → status resp = StatusOK ∧ ∃ zw, body resp = Data zw).
Proof.
  unfold runs. exec_pipeline.
  destruct (Body_ReadAll r) as [blob|]; simpl; cycle 1.
  { pick_ops. split; [by repeat constructor|]. split; [outcome|]. done. }
  destruct (imagick_SetResolution (density cfg) (density cfg)) eqn:Eres; simpl; cycle 1.
  { pick_ops. split; [by repeat constructor|]. split; [outcome|]. done. }
  destruct (imagick_ReadImageBlob (density cfg) (density cfg) blob) as [imgs|] eqn:Eread;
    simpl; cycle 1.
  { pick_ops. split; [by repeat constructor|]. split; [outcome|]. done. }
  rewrite <- ?app_assoc; simpl.
  set (pre := [EvReadAll true; EvNewMagickWand (fresh (world f));
               EvSetResolution (fresh (world f)) (density cfg) (density cfg) true;
               EvReadImageBlob (fresh (world f)) true; EvResetIterator (fresh (world f))]).
  match goal with |- context [pageLoop _ _ _ _ _ ?F] => change F with (after f pre) end.
  destruct (pageLoop_runs cfg (fresh (world f)) imgs 0 [] (after f pre))
    as (r1 & ops1 & Hr1 & Hin1 & Ho1 & Hacq1).
  unfold runs in Hr1. rewrite Hr1, after_app.
  assert (Hpre : Forall (configuredCall cfg) (pre ++ ops1)).
  { apply Forall_app. split; [by repeat constructor|done]. }
  assert (Hacq : acquired (pre ++ ops1) =
                 seq (fresh (world f)) (length (acquired (pre ++ ops1)))).
  { rewrite acquired_app. simpl. f_equal. simpl in Hacq1. done. }
  destruct r1 as [resp|zw].
  - exists (inl resp), (pre ++ ops1). split; [reflexivity|]. split; [done|].
    split; [apply Outcome_app; [by repeat constructor|done]|]. done.
  - destruct (zip_Close zw) eqn:Eclose; simpl.
    + exists (inr (mkResponse StatusOK (Data zw))), ((pre ++ ops1) ++ [EvZipClose true]).
      split; [by rewrite <- after_app|].
      split; [apply Forall_app; split; [done|by repeat constructor]|].
      split.
      { apply Forall_app. split; [|by repeat constructor].
        apply Forall_app. split; [by repeat constructor|done]. }
      split; [rewrite acquired_app; simpl; by rewrite app_nil_r|].
      intros resp [= <-]. split; [done|by eexists].
    + exists (inl (errorResponse StatusInternalServerError "failed to close Zip archive")),
        ((pre ++ ops1) ++ [EvZipClose false]).
      split; [by rewrite <- after_app|].
      split; [apply Forall_app; split; [done|by repeat constructor]|].
      split.
      { exists (pre ++ ops1), (EvZipClose false). repeat split; try done.
        apply Forall_app. split; [by repeat constructor|done]. }
      split; [rewrite acquired_app; simpl; by rewrite app_nil_r|]. done.
Qed.

Lemma resolve_status q resp :
  resolve q = inl resp →
  status resp = StatusBadRequest ∧
  ∃ msg, resp = errorResponse StatusBadRequest msg ∧
         msg ∈ ["invalid density"; "invalid compression quality";
                "invalid output format"; "invalid output layout"].
Proof.
  unfold resolve, parseDensity, parseQuality, parseFormat, parseLayout.
  repeat case_match; intros; simplify_eq; (split; [done|]); eexists; (split; [done|]);
    set_solver.
Qed.

Lemma convertHandler_invalid r w resp :
  resolve (URL_Query r) = inl resp → convertHandler r w = (resp, w).
Proof.
  intros E. unfold convertHandler, handlerBody, lift, mbind, M_bind. rewrite E.
  unfold run_deferred. simpl. rewrite app_nil_r. by destruct w.
Qed.

Lemma convertHandler_valid r w cfg :
  resolve (URL_Query r) = inr cfg →
  ∃ res ops,
    runs (pipeline cfg r) (mkFrame w []) res ops ∧
    convertHandler r w =
      (rendered res,
       mkWorld (trace w ++ ops ++ map EvDestroy (rev (acquired ops)))
               (length (acquired ops) + fresh w)%nat) ∧
    Forall (configuredCall cfg) ops ∧
    Outcome res ops ∧
    acquired ops = seq (fresh w) (length (acquired ops)) ∧
    (∀ resp, res = inr resp → status resp = StatusOK ∧ ∃ zw, body resp = Data zw).
Proof.
  intros E.
  destruct (pipeline_runs cfg r (mkFrame w [])) as (res & ops & Hr & Hcalls & Ho & Hacq & Hok).
  exists res, ops. split; [done|]. split; [|done].
  unfold convertHandler, handlerBody, lift, mbind, M_bind. rewrite E.
  unfold runs in Hr. rewrite Hr. unfold run_deferred, after, rendered. simpl.
  by rewrite app_nil_r, <- app_assoc.
Qed.

Lemma requestTrace_invalid r w resp :
  resolve (URL_Query r) = inl resp → requestTrace r w = [].
Proof.
  intros E. unfold requestTrace. rewrite (convertHandler_invalid _ _ _ E). simpl.
  by rewrite drop_all.
Qed.
End Runs.

(** ** Parameter resolution *)

Section Parameters.
Context {lib : GoLib} {engine : Imagick} {zip : ZipWriter}.

Lemma convertHandler_query (q q' : Values) b w :
  resolve q = resolve q' →
  convertHandler (mkRequest q b) w = convertHandler (mkRequest q' b) w.
Proof.
  intros E. unfold convertHandler, handlerBody, lift, mbind, M_bind. simpl.
  rewrite E. reflexivity.
Qed.

(** C9. A recognized query parameter (density, quality, format, layout) that
    is given with an empty value is resolved exactly like an absent one: its
    block raises no validation error and leaves the default (300.0, 85, JPEG,
    KEEP), and the whole request is answered as if the key had been left
    out. *)
Theorem empty_value_is_absent (q : Values) (vs : list string) :
  parseDensity (<["density" := "" :: vs]> q) = inr 300%float ∧
  parseQuality (<["quality" := "" :: vs]> q) = inr 85%N ∧
  parseFormat (<["format" := "" :: vs]> q) = inr "JPEG" ∧
  parseLayout (<["layout" := "" :: vs]> q) = inr layoutTypeKeep ∧
  Forall (λ k, resolve (<[k := "" :: vs]> q) = resolve (delete k q) ∧
               ∀ b w, convertHandler (mkRequest (<[k := "" :: vs]> q) b) w =
                      convertHandler (mkRequest (delete k q) b) w) recognized ∧
  resolve (list_to_map ((λ k, (k, [""])) <$> recognized)) = inr defaultConfig ∧
  resolve ∅ = inr defaultConfig.
Proof.
  unfold parseDensity, parseQuality, parseFormat, parseLayout.
  rewrite !Get_insert_eq. repeat (split; [reflexivity|]).
  split; [|split; reflexivity].
  unfold recognized. repeat constructor.
  all: try (apply resolve_Get; intros k; apply Get_empty_value).
  all: intros b w; apply convertHandler_query, resolve_Get; intros k;
    apply Get_empty_value.
Qed.
End Parameters.

Section Density.
Context {lib : GoLib} {engine : Imagick} {zip : ZipWriter}.

Lemma requestTrace_valid r w cfg :
  resolve (URL_Query r) = inr cfg →
  ∃ res ops,
    requestTrace r w = ops ++ map EvDestroy (rev (acquired ops)) ∧
    (convertHandler r w).1 = rendered res ∧
    Forall (configuredCall cfg) ops ∧
    Outcome res ops ∧
    acquired ops = seq (fresh w) (length (acquired ops)) ∧
    (∀ resp, res = inr resp → status resp = StatusOK ∧ ∃ zw, body resp = Data zw).
Proof.
  intros E. destruct (convertHandler_valid r w cfg E)
    as (res & ops & _ & Hh & Hcalls & Ho & Hacq & Hok).
  exists res, ops. unfold requestTrace. rewrite Hh. simpl.
  by rewrite drop_app_length.
Qed.

(** C7, as the code has it.  For a non-empty density value: when
    [strconv.ParseFloat] accepts it, the resolved density is the parsed number
    and every [SetResolution] of the request passes that number as both the
    horizontal and the vertical resolution; when [ParseFloat] rejects it, the
    request is answered 400 "invalid density" and no call at all is made. *)
Theorem density_parsed_or_rejected (r : Request) (w : World) (v : string) :
  Get (URL_Query r) "density" = v → v ≠ "" →
  (∀ d, strconv_ParseFloat v = Some d →
     parseDensity (URL_Query r) = inr d ∧
     (∀ cfg, resolve (URL_Query r) = inr cfg → density cfg = d) ∧
     (∀ mw x y ok, EvSetResolution mw x y ok ∈ requestTrace r w → x = d ∧ y = d)) ∧
  (strconv_ParseFloat v = None →
     convertHandler r w = (errorResponse StatusBadRequest "invalid density", w) ∧
     requestTrace r w = []).
Proof.
  intros Hv Hne.
  assert (Hd : ∀ d, strconv_ParseFloat v = Some d → parseDensity (URL_Query r) = inr d).
  { intros d Hp. unfold parseDensity. rewrite Hv. by rewrite decide_False, Hp. }
  assert (Hcfg : ∀ d cfg, strconv_ParseFloat v = Some d →
                          resolve (URL_Query r) = inr cfg → density cfg = d).
  { intros d cfg Hp. unfold resolve. rewrite (Hd d Hp).
    repeat case_match; intros; by simplify_eq. }
  split.
  - intros d Hp. split; [by apply Hd|]. split; [intros cfg; by apply Hcfg|].
    intros mw x y ok Hin.
    destruct (resolve (URL_Query r)) as [resp|cfg] eqn:E.
    + rewrite (requestTrace_invalid _ _ _ E) in Hin. by apply elem_of_nil in Hin.
    + destruct (requestTrace_valid r w cfg E) as (res & ops & Ht & _ & Hcalls & _).
      rewrite Ht in Hin. apply elem_of_app in Hin as [Hin|Hin].
      * rewrite Forall_forall in Hcalls. specialize (Hcalls _ Hin).
        simpl in Hcalls. by rewrite <- (Hcfg d cfg Hp eq_refl).
      * apply list_elem_of_fmap in Hin as (h & Hh & _). discriminate.
  - intros Hp.
    assert (E : resolve (URL_Query r) = inl (errorResponse StatusBadRequest "invalid density")).
    { unfold resolve, parseDensity. rewrite Hv. by rewrite decide_False, Hp. }
    split; [by apply convertHandler_invalid|by eapply requestTrace_invalid].
Qed.
End Density.

(** A request with [density=150]: the parsed value is the density handed to
    the engine. *)
Lemma density_parsed_or_rejected_witness :
  Get {["density" := ["150"]]} "density" = "150" ∧ "150" ≠ "" ∧
  parseDensity (lib := decimalLib) {["density" := ["150"]]} = inr 150%float.
Proof.
  split; [reflexivity|]. split; [discriminate|].
  exact (proj1 (proj1 (density_parsed_or_rejected (lib := decimalLib) (engine := rasterEngine NoFault)
           (zip := bufferZip NoFault) (mkRequest {["density" := ["150"]]} (Some twoPages))
           emptyWorld "150" eq_refl ltac:(discriminate)) 150%float eq_refl)).
Defined.

(** C7 as stated fails on the empty value: [ParseFloat] rejects the empty
    string, yet a request with [density=] is not answered 400: it is converted
    at the default density. *)
Lemma density_empty_not_rejected :
  strconv_ParseFloat (GoLib := decimalLib) "" = None ∧
  Get {["density" := [""]]} "density" = "" ∧
  resolve (lib := decimalLib) {["density" := [""]]} = inr defaultConfig ∧
  (runHandler NoFault (mkRequest {["density" := [""]]} (Some twoPages)) emptyWorld).1 =
    mkResponse StatusOK
      (Data [("0000.jpg", [Byte.x05; Byte.x08]); ("0001.jpg", [Byte.x04; Byte.x04])]).
Proof. repeat split; reflexivity. Qed.

(** ** Archive entries *)

Section Archive.
Context {lib : GoLib} {engine : Imagick} {zip : ZipWriter}.

Lemma pageLoop_names cfg mw imgs : ∀ page zw f zw' f',
  pageLoop cfg mw page imgs zw f = (inr zw', f') →
  zw'.*1 = zw.*1 ++ pageNames (format cfg) page (length imgs).
Proof.
  induction imgs as [|img rest IH]; intros page zw f zw' f' E.
  - injection E as <- _. simpl. by rewrite app_nil_r.
  - rewrite pageLoop_cons in E.
    destruct (convertPage_runs cfg mw page img zw (after f [EvNextImage mw true]))
      as (r1 & ops1 & Hr1 & _ & _ & _ & Hzw).
    unfold runs in Hr1. rewrite Hr1 in E. destruct r1 as [resp|zw1]; [discriminate|].
    destruct (Hzw zw1 eq_refl) as [out ->].
    apply IH in E. rewrite E, fmap_app, <- app_assoc. reflexivity.
Qed.

Lemma int_incr_small page : 0 ≤ page < 2 ^ 63 - 1 → int_incr page = page + 1.
Proof.
  intros Hp. unfold int_incr, int_wrap.
  rewrite Z.mod_small by lia. lia.
Qed.

Lemma pageNames_seq fmt n : ∀ page,
  0 ≤ page → page + Z.of_nat n ≤ 2 ^ 63 →
  pageNames fmt page n = map (λ i, entryName (page + Z.of_nat i) fmt) (seq 0 n).
Proof.
  induction n as [|n IH]; intros page H0 Hn; [reflexivity|].
  simpl. rewrite Z.add_0_r. f_equal.
  destruct n as [|n]; [reflexivity|].
  rewrite int_incr_small by lia. rewrite IH by lia.
  rewrite <- seq_shift, map_map. apply map_ext. intros i. f_equal. lia.
Qed.

Lemma pageNames_length fmt n : ∀ page, length (pageNames fmt page n) = n.
Proof. induction n as [|n IH]; intros page; simpl; by rewrite ?IH. Qed.

Lemma pageNames_extension fmt n : ∀ page,
  Forall (λ name, ∃ p, name = Sprintf_04d p +:+ "." +:+ formatExtension fmt)
         (pageNames fmt page n).
Proof.
  induction n as [|n IH]; intros page; simpl; constructor; [by eexists|apply IH].
Qed.

Lemma pipeline_archive cfg r f resp f' :
  pipeline cfg r f = (inr resp, f') →
  ∃ blob imgs zw,
    Body_ReadAll r = Some blob ∧
    imagick_ReadImageBlob (density cfg) (density cfg) blob = Some imgs ∧
    resp = mkResponse StatusOK (Data zw) ∧
    zw.*1 = pageNames (format cfg) 0 (length imgs).
Proof.
  unfold pipeline, ReadAll, NewMagickWand, SetResolution, ReadImageBlob, zipClose,
    respond, emit, alloc, defer_Destroy, mbind, M_bind, mret, M_ret. simpl.
  destruct (Body_ReadAll r) as [blob|]; simpl; [|discriminate].
  destruct (imagick_SetResolution _ _); simpl; [|discriminate].
  destruct (imagick_ReadImageBlob _ _ blob) as [imgs|] eqn:Eread; simpl; [|discriminate].
  destruct (pageLoop _ _ _ _ _ _) as [[resp'|zw] f1] eqn:Eloop; [discriminate|].
  destruct (zip_Close zw); simpl; [|discriminate].
  intros [= <- _]. exists blob, imgs, zw.
  split; [done|]. split; [done|]. split; [done|].
  apply pageLoop_names in Eloop. exact Eloop.
Qed.

Lemma convertHandler_archive r w cfg :
  resolve (URL_Query r) = inr cfg →
  status (convertHandler r w).1 = StatusOK →
  ∃ blob imgs zw,
    Body_ReadAll r = Some blob ∧
    imagick_ReadImageBlob (density cfg) (density cfg) blob = Some imgs ∧
    (convertHandler r w).1 = mkResponse StatusOK (Data zw) ∧
    zw.*1 = pageNames (format cfg) 0 (length imgs).
Proof.
  intros E Hs.
  destruct (convertHandler_valid r w cfg E) as (res & ops & Hr & Hh & _ & Ho & _).
  rewrite Hh in Hs |- *. simpl in *. destruct res as [resp|resp].
  - destruct Ho as (pre & e & _ & _ & _ & ->). discriminate.
  - by apply pipeline_archive in Hr.
Qed.

Lemma resolve_format q cfg :
  resolve q = inr cfg → ∃ ext, formatExtensionMap !! format cfg = Some ext.
Proof.
  unfold resolve, parseFormat. repeat case_match; intros; simplify_eq/=; by eexists.
Qed.

(** C4. When a request with a validated configuration succeeds on a document
    that decodes to N pages, the archive has exactly N entries; the entry of
    page i (from zero) is named by [%04d] of i, a dot and the canonical
    extension of the configured format, and the entries stand in page
    order. *)
Theorem archive_entries (r : Request) (w : World) (cfg : Config) (blob : bytes)
    (imgs : list Image) :
  resolve (URL_Query r) = inr cfg →
  Body_ReadAll r = Some blob →
  imagick_ReadImageBlob (density cfg) (density cfg) blob = Some imgs →
  Z.of_nat (length imgs) ≤ 2 ^ 63 →
  status (convertHandler r w).1 = StatusOK →
  ∃ zw ext,
    body (convertHandler r w).1 = Data zw ∧
    length zw = length imgs ∧
    formatExtensionMap !! format cfg = Some ext ∧
    ext ∈ ["jpg"; "png"; "tiff"] ∧
    zw.*1 = map (λ i, Sprintf_04d (Z.of_nat i) +:+ "." +:+ ext) (seq 0 (length imgs)).
Proof.
  intros E Hb Hd Hn Hs.
  destruct (convertHandler_archive r w cfg E Hs) as (blob' & imgs' & zw & Hb' & Hd' & Hr & Hz).
  rewrite Hb in Hb'. injection Hb' as <-. rewrite Hd in Hd'. injection Hd' as <-.
  destruct (resolve_format _ _ E) as [ext Hext].
  exists zw, ext. rewrite Hr. split; [done|].
  split.
  { pose proof (f_equal length Hz) as Hlen.
    by rewrite length_fmap, pageNames_length in Hlen. }
  split; [done|].
  split.
  { apply formatExtensionMap_Some in Hext as [[_ ->]|[[_ ->]|[_ ->]]];
      rewrite !elem_of_cons; auto. }
  rewrite Hz, pageNames_seq by lia. apply map_ext. intros i.
  unfold entryName, formatExtension. by rewrite Hext.
Qed.
End Archive.

(** The two-page document under the defaults: [0000.jpg], [0001.jpg]. *)
Lemma archive_entries_witness :
  resolve (lib := decimalLib) ∅ = inr defaultConfig ∧
  imagick_ReadImageBlob (Imagick := rasterEngine NoFault) 300 300 twoPages =
    Some [mkRaster 5 8 0 ""; mkRaster 4 4 0 ""] ∧
  (Z.of_nat 2 ≤ 2 ^ 63) ∧
  status (runHandler NoFault (mkRequest ∅ (Some twoPages)) emptyWorld).1 = StatusOK ∧
  entryNames (runHandler NoFault (mkRequest ∅ (Some twoPages)) emptyWorld).1 =
    ["0000.jpg"; "0001.jpg"].
Proof.
  assert (Hcfg : resolve (lib := decimalLib) ∅ = inr defaultConfig) by reflexivity.
  assert (Himgs : imagick_ReadImageBlob (Imagick := rasterEngine NoFault) 300 300 twoPages =
                  Some [mkRaster 5 8 0 ""; mkRaster 4 4 0 ""]) by reflexivity.
  assert (Hn : Z.of_nat 2 ≤ 2 ^ 63) by (vm_compute; discriminate).
  assert (Hok : status (runHandler NoFault (mkRequest ∅ (Some twoPages)) emptyWorld).1 =
                StatusOK) by reflexivity.
  split; [exact Hcfg|]. split; [exact Himgs|]. split; [exact Hn|]. split; [exact Hok|].
  destruct (archive_entries (lib := decimalLib) (engine := rasterEngine NoFault)
              (zip := bufferZip NoFault) (mkRequest ∅ (Some twoPages)) emptyWorld
              defaultConfig twoPages [mkRaster 5 8 0 ""; mkRaster 4 4 0 ""]
              Hcfg eq_refl Himgs Hn Hok)
    as (zw & ext & Hbody & _ & Hext & _ & Hnames).
  unfold entryNames, runHandler. rewrite Hbody, Hnames.
  injection Hext as <-. reflexivity.
Defined.

(** ** The output format *)

Section Format.
Context {lib : GoLib} {engine : Imagick} {zip : ZipWriter}.

Lemma ToUpper_empty : strings_ToUpper "" = "".
Proof. by rewrite strings_ToUpper_ascii. Qed.

Lemma canonicalFormats_upper name F ext :
  (name, F, ext) ∈ canonicalFormats →
  strings_ToUpper name = F ∧ formatExtensionMap !! F = Some ext.
Proof.
  unfold canonicalFormats. rewrite !elem_of_cons, elem_of_nil.
  intros [E|[E|[E|[]]]]; injection E as -> -> ->.
  - by rewrite ToUpper_jpeg.
  - by rewrite ToUpper_png.
  - by rewrite ToUpper_tiff.
Qed.

Lemma parseFormat_accepts q F ext :
  strings_ToUpper (Get q "format") = F → formatExtensionMap !! F = Some ext →
  parseFormat q = inr F.
Proof.
  intros HF Hext. unfold parseFormat.
  destruct (decide (Get q "format" = "")) as [E|_].
  - rewrite E, ToUpper_empty in HF. subst F. discriminate.
  - by rewrite HF, Hext.
Qed.

Lemma upper_ascii_is_ascii (c : ascii) :
  is_ascii (upper_ascii c) = true → is_ascii c = true.
Proof.
  unfold upper_ascii, is_ascii.
  destruct ((97 <=? N_of_ascii c) && (N_of_ascii c <=? 122))%N eqn:E; [|done].
  intros _. apply andb_prop in E as [_ E]. apply N.leb_le in E. apply N.ltb_lt. lia.
Qed.

Lemma string_map_upper_is_ascii (s : string) :
  string_forall is_ascii (string_map upper_ascii s) = true →
  string_forall is_ascii s = true.
Proof.
  induction s as [|c s IH]; [done|]. simpl.
  intros H. apply andb_prop in H as [Hc Hs].
  by rewrite (upper_ascii_is_ascii _ Hc), IH.
Qed.

Lemma canonicalFormats_fold name F ext :
  (name, F, ext) ∈ canonicalFormats →
  string_map upper_ascii name = F ∧ string_forall is_ascii F = true ∧
  formatExtensionMap !! F = Some ext.
Proof.
  unfold canonicalFormats. rewrite !elem_of_cons, elem_of_nil.
  intros [E|[E|[E|[]]]]; by injection E as -> -> ->.
Qed.

Lemma equalFold_ToUpper v name F ext :
  (name, F, ext) ∈ canonicalFormats → equalFold v name →
  string_forall is_ascii v = true ∧ strings_ToUpper v = F.
Proof.
  intros Hin Heq. destruct (canonicalFormats_fold _ _ _ Hin) as (HF & Ha & _).
  unfold equalFold in Heq. rewrite HF in Heq.
  assert (Hv : string_forall is_ascii v = true)
    by (apply string_map_upper_is_ascii; by rewrite Heq).
  split; [done|]. by rewrite strings_ToUpper_ascii.
Qed.

Lemma parseFormat_rejects_upper q :
  Get q "format" ≠ "" →
  strings_ToUpper (Get q "format") ∉ ["JPEG"; "PNG"; "TIFF"] →
  parseFormat q = inl (errorResponse StatusBadRequest "invalid output format").
Proof.
  rewrite !not_elem_of_cons. intros Hne (Hj & Hp & Ht & _).
  unfold parseFormat. rewrite decide_False by done.
  destruct (formatExtensionMap !! strings_ToUpper (Get q "format")) as [ext|] eqn:E;
    [|done].
  by apply formatExtensionMap_Some in E as [[E _]|[[E _]|[E _]]].
Qed.

Lemma rejected_by_format r w :
  parseFormat (URL_Query r) = inl (errorResponse StatusBadRequest "invalid output format") →
  status (convertHandler r w).1 = StatusBadRequest ∧
  (convertHandler r w).2 = w ∧
  requestTrace r w = [] ∧
  (∀ d n, parseDensity (URL_Query r) = inr d → parseQuality (URL_Query r) = inr n →
     (convertHandler r w).1 = errorResponse StatusBadRequest "invalid output format").
Proof.
  intros Hparse.
  assert (∃ resp, resolve (URL_Query r) = inl resp) as [resp E].
  { unfold resolve. rewrite Hparse. repeat case_match; by eexists. }
  rewrite (convertHandler_invalid _ _ _ E). simpl.
  split; [by apply resolve_status in E as [E _]|]. split; [done|].
  split; [by eapply requestTrace_invalid|].
  intros d n Hd Hq. unfold resolve in E. rewrite Hd, Hq, Hparse in E. by injection E.
Qed.

Lemma accepted_format r w F ext :
  parseFormat (URL_Query r) = inr F → formatExtensionMap !! F = Some ext →
  (∀ cfg, resolve (URL_Query r) = inr cfg → format cfg = F) ∧
  (status (convertHandler r w).1 = StatusOK →
   Forall (λ n, ∃ page, n = Sprintf_04d page +:+ "." +:+ ext)
          (entryNames (convertHandler r w).1)).
Proof.
  intros Hparse Hext.
  assert (Hcfg : ∀ cfg, resolve (URL_Query r) = inr cfg → format cfg = F).
  { intros cfg. unfold resolve. rewrite Hparse.
    repeat case_match; intros; by simplify_eq. }
  split; [done|].
  intros Hs. destruct (resolve (URL_Query r)) as [resp|cfg] eqn:E.
  - rewrite (convertHandler_invalid _ _ _ E) in Hs. simpl in Hs.
    apply resolve_status in E as [E _]. rewrite E in Hs. discriminate.
  - destruct (convertHandler_archive r w cfg E Hs) as (blob & imgs & zw & _ & _ & -> & Hz).
    unfold entryNames. simpl. rewrite Hz, (Hcfg cfg eq_refl).
    replace ext with (formatExtension F) by (unfold formatExtension; by rewrite Hext).
    apply pageNames_extension.
Qed.

(** C5, as the code has it.  A format value equal to "jpeg", "png" or "tiff"
    up to the case of its ASCII letters passes the format block and resolves
    to JPEG, PNG or TIFF; the entries of the archive then carry the extension
    jpg, png or tiff.  Any other non-empty value made of ASCII bytes only is
    rejected by the format block: the request is answered 400 before a single
    call is made (the world is unchanged), with the body
    "invalid output format" once the density and quality blocks, which come
    first, have passed.  A value with bytes outside ASCII is judged by
    [strings.ToUpper] alone: it is accepted as the format its upper-casing
    names, and rejected in the same way when its upper-casing is none of
    JPEG, PNG, TIFF. *)
Theorem format_accepted_or_rejected (r : Request) (w : World) (v : string) :
  Get (URL_Query r) "format" = v →
  (∀ name F ext, (name, F, ext) ∈ canonicalFormats → equalFold v name →
     parseFormat (URL_Query r) = inr F ∧
     formatExtensionMap !! F = Some ext ∧
     (∀ cfg, resolve (URL_Query r) = inr cfg → format cfg = F) ∧
     (status (convertHandler r w).1 = StatusOK →
      Forall (λ n, ∃ page, n = Sprintf_04d page +:+ "." +:+ ext)
             (entryNames (convertHandler r w).1))) ∧
  (v ≠ "" → string_forall is_ascii v = true →
   ¬ equalFold v "jpeg" → ¬ equalFold v "png" → ¬ equalFold v "tiff" →
     parseFormat (URL_Query r) = inl (errorResponse StatusBadRequest "invalid output format") ∧
     status (convertHandler r w).1 = StatusBadRequest ∧
     (convertHandler r w).2 = w ∧
     requestTrace r w = [] ∧
     (∀ d n, parseDensity (URL_Query r) = inr d → parseQuality (URL_Query r) = inr n →
        (convertHandler r w).1 = errorResponse StatusBadRequest "invalid output format")) ∧
  (∀ F ext, strings_ToUpper v = F → formatExtensionMap !! F = Some ext →
     parseFormat (URL_Query r) = inr F ∧
     (∀ cfg, resolve (URL_Query r) = inr cfg → format cfg = F) ∧
     (status (convertHandler r w).1 = StatusOK →
      Forall (λ n, ∃ page, n = Sprintf_04d page +:+ "." +:+ ext)
             (entryNames (convertHandler r w).1))) ∧
  (v ≠ "" → strings_ToUpper v ∉ ["JPEG"; "PNG"; "TIFF"] →
     parseFormat (URL_Query r) = inl (errorResponse StatusBadRequest "invalid output format") ∧
     status (convertHandler r w).1 = StatusBadRequest ∧
     (convertHandler r w).2 = w ∧
     requestTrace r w = [] ∧
     (∀ d n, parseDensity (URL_Query r) = inr d → parseQuality (URL_Query r) = inr n →
        (convertHandler r w).1 = errorResponse StatusBadRequest "invalid output format")).
Proof.
  intros <-.
  assert (Hacc : ∀ F ext, strings_ToUpper (Get (URL_Query r) "format") = F →
            formatExtensionMap !! F = Some ext →
            parseFormat (URL_Query r) = inr F ∧
            (∀ cfg, resolve (URL_Query r) = inr cfg → format cfg = F) ∧
            (status (convertHandler r w).1 = StatusOK →
             Forall (λ n, ∃ page, n = Sprintf_04d page +:+ "." +:+ ext)
                    (entryNames (convertHandler r w).1))).
  { intros F ext HF Hext. pose proof (parseFormat_accepts _ _ _ HF Hext) as Hparse.
    split; [done|]. by apply accepted_format. }
  assert (Hrej : Get (URL_Query r) "format" ≠ "" →
            strings_ToUpper (Get (URL_Query r) "format") ∉ ["JPEG"; "PNG"; "TIFF"] →
            parseFormat (URL_Query r) =
              inl (errorResponse StatusBadRequest "invalid output format") ∧
            status (convertHandler r w).1 = StatusBadRequest ∧
            (convertHandler r w).2 = w ∧
            requestTrace r w = [] ∧
            (∀ d n, parseDensity (URL_Query r) = inr d →
                    parseQuality (URL_Query r) = inr n →
               (convertHandler r w).1 =
                 errorResponse StatusBadRequest "invalid output format")).
  { intros Hne Hup. pose proof (parseFormat_rejects_upper _ Hne Hup) as Hparse.
    split; [done|]. by apply rejected_by_format. }
  split; [|split; [|split; [exact Hacc|exact Hrej]]].
  - intros name F ext Hin Heq.
    destruct (equalFold_ToUpper _ _ _ _ Hin Heq) as [_ HF].
    destruct (canonicalFormats_fold _ _ _ Hin) as (_ & _ & Hext).
    destruct (Hacc F ext HF Hext) as (H1 & H2 & H3). done.
  - intros Hne Hascii Hj Hp Ht. apply Hrej; [done|].
    rewrite strings_ToUpper_ascii by done. unfold equalFold in Hj, Hp, Ht.
    rewrite !not_elem_of_cons. split; [exact Hj|]. split; [exact Hp|]. split; [exact Ht|].
    apply not_elem_of_nil.
Qed.
End Format.

(** [format=bogus] is answered 400 "invalid output format" without a call;
    [format=Png] resolves to PNG. *)
Lemma format_accepted_or_rejected_witness :
  (Get {["format" := ["bogus"]]} "format" = "bogus" ∧ "bogus" ≠ "" ∧
   string_forall is_ascii "bogus" = true ∧
   ¬ equalFold "bogus" "jpeg" ∧ ¬ equalFold "bogus" "png" ∧ ¬ equalFold "bogus" "tiff" ∧
   runHandler NoFault (mkRequest {["format" := ["bogus"]]} (Some twoPages)) emptyWorld =
     (errorResponse StatusBadRequest "invalid output format", emptyWorld)) ∧
  (Get {["format" := ["Png"]]} "format" = "Png" ∧
   equalFold "Png" "png" ∧
   parseFormat (lib := decimalLib) {["format" := ["Png"]]} = inr "PNG").
Proof.
  pose proof (format_accepted_or_rejected (lib := decimalLib) (engine := rasterEngine NoFault)
    (zip := bufferZip NoFault) (mkRequest {["format" := ["bogus"]]} (Some twoPages))
    emptyWorld "bogus" eq_refl) as (_ & Hrej & _).
  pose proof (format_accepted_or_rejected (lib := decimalLib) (engine := rasterEngine NoFault)
    (zip := bufferZip NoFault) (mkRequest {["format" := ["Png"]]} (Some twoPages))
    emptyWorld "Png" eq_refl) as (Hacc & _).
  assert (Hj : ¬ equalFold "bogus" "jpeg") by (vm_compute; discriminate).
  assert (Hp : ¬ equalFold "bogus" "png") by (vm_compute; discriminate).
  assert (Ht : ¬ equalFold "bogus" "tiff") by (vm_compute; discriminate).
  split.
  - split; [reflexivity|]. split; [discriminate|]. split; [reflexivity|].
    do 3 (split; [assumption|]).
    destruct (Hrej ltac:(discriminate) eq_refl Hj Hp Ht) as (_ & _ & Hw & _ & Hbody).
    specialize (Hbody 300%float 85%N eq_refl eq_refl).
    unfold runHandler. apply injective_projections; [exact Hbody|exact Hw].
  - split; [reflexivity|]. split; [reflexivity|].
    refine (proj1 (Hacc "png" "PNG" "png" _ eq_refl)).
    unfold canonicalFormats. rewrite !elem_of_cons. right; left; reflexivity.
Defined.

(** C5 as stated fails on a value with a letter outside ASCII.  The value
    [t], dotless i, [ff] is not empty and is not equal to "jpeg", "png" or
    "tiff" up to case (it has five bytes, and dotless i is no case variant of
    i), yet [strings.ToUpper] turns it into TIFF: the format block accepts it
    and the request is answered 200 with [.tiff] entries, not 400. *)
Lemma dotless_i_accepted_as_tiff :
  dotless_tiff ≠ "" ∧ String.length dotless_tiff = 5%nat ∧
  ¬ equalFold dotless_tiff "jpeg" ∧ ¬ equalFold dotless_tiff "png" ∧
  ¬ equalFold dotless_tiff "tiff" ∧
  strings_ToUpper (GoLib := dotlessLib) dotless_tiff = "TIFF" ∧
  parseFormat (lib := dotlessLib) {["format" := [dotless_tiff]]} = inr "TIFF" ∧
  (convertHandler (lib := dotlessLib) (engine := rasterEngine NoFault)
     (zip := bufferZip NoFault)
     (mkRequest {["format" := [dotless_tiff]]} (Some twoPages)) emptyWorld).1 =
    mkResponse StatusOK
      (Data [("0000.tiff", [Byte.x05; Byte.x08]); ("0001.tiff", [Byte.x04; Byte.x04])]).
Proof.
  split; [discriminate|]. split; [reflexivity|].
  split; [vm_compute; discriminate|]. split; [vm_compute; discriminate|].
  split; [vm_compute; discriminate|]. repeat split; reflexivity.
Qed.

(** ** The output layout *)

Section Layout.
Context {lib : GoLib} {engine : Imagick} {zip : ZipWriter}.

Ltac exec_layout :=
  unfold forceLayout, RotateImage, GetImageWidth, GetImageHeight,
    respond, emit, mbind, M_bind, mret, M_ret; simpl.


Lemma forceLayout_keeps layout (mwm : Wand) f :
  (layout = layoutTypeLandscape ∧
   (imagick_GetImageWidth mwm.2 <? imagick_GetImageHeight mwm.2)%N = false) ∨
  (layout = layoutTypePortrait ∧
   (imagick_GetImageHeight mwm.2 <? imagick_GetImageWidth mwm.2)%N = false) ∨
  layout = layoutTypeKeep →
  forceLayout layout mwm f = (inr mwm, f).
Proof.
  intros [[-> Hlt]|[[-> Hlt]| ->]]; exec_layout; by rewrite ?Hlt.
Qed.



(** C2. The comparisons are strict ([width < height] under LANDSCAPE,
    [height < width] under PORTRAIT), so a page whose width equals its height
    is never rotated: under either policy the switch makes no call and leaves
    the wand as it is, and the page is converted exactly as under KEEP, with
    the dimensions it had. *)
Theorem square_page_never_rotated (cfg : Config) (mw : handle) (page : Z) (img i1 i2 : Image)
    (zw : list entry) (f f' : Frame) :
  imagick_SetImageCompressionQuality (imagick_MergeImageLayers img) (quality cfg) = Some i1 →
  imagick_SetImageFormat i1 (format cfg) = Some i2 →
  imagick_GetImageWidth i2 = imagick_GetImageHeight i2 →
  (imagick_GetImageWidth i2 <? imagick_GetImageHeight i2)%N = false ∧
  (imagick_GetImageHeight i2 <? imagick_GetImageWidth i2)%N = false ∧
  Forall (λ l, ∀ h,
            forceLayout l (h, i2) f' = (inr (h, i2), f') ∧
            convertPage (mkConfig (density cfg) (quality cfg) (format cfg) l) mw page img zw f =
            convertPage (mkConfig (density cfg) (quality cfg) (format cfg) layoutTypeKeep)
              mw page img zw f)
         [layoutTypeLandscape; layoutTypePortrait].
Proof.
  intros Hq Hf Hsq.
  assert (H1 : (imagick_GetImageWidth i2 <? imagick_GetImageHeight i2)%N = false)
    by (rewrite Hsq; apply N.ltb_irrefl).
  assert (H2 : (imagick_GetImageHeight i2 <? imagick_GetImageWidth i2)%N = false)
    by (rewrite Hsq; apply N.ltb_irrefl).
  split; [done|]. split; [done|].
  repeat constructor.
  - apply forceLayout_keeps. left. by split.
  - unfold convertPage, GetImage, MergeImageLayers, SetImageCompressionQuality,
      SetImageFormat, alloc, emit, defer_Destroy, mbind, M_bind, mret, M_ret. simpl.
    rewrite Hq. simpl. rewrite Hf. simpl.
    rewrite (forceLayout_keeps layoutTypeLandscape) by (left; by split).
    reflexivity.
  - apply forceLayout_keeps. right; left. by split.
  - unfold convertPage, GetImage, MergeImageLayers, SetImageCompressionQuality,
      SetImageFormat, alloc, emit, defer_Destroy, mbind, M_bind, mret, M_ret. simpl.
    rewrite Hq. simpl. rewrite Hf. simpl.
    rewrite (forceLayout_keeps layoutTypePortrait) by (right; left; by split).
    reflexivity.
Qed.
End Layout.



(** The 4 by 4 page of the small engine. *)
Lemma square_page_never_rotated_witness :
  imagick_SetImageCompressionQuality (Imagick := rasterEngine NoFault)
    (imagick_MergeImageLayers (Imagick := rasterEngine NoFault) (mkRaster 4 4 0 "")) 85 =
    Some (mkRaster 4 4 85 "") ∧
  imagick_SetImageFormat (Imagick := rasterEngine NoFault) (mkRaster 4 4 85 "") "JPEG" =
    Some (mkRaster 4 4 85 "JPEG") ∧
  imagick_GetImageWidth (Imagick := rasterEngine NoFault) (mkRaster 4 4 85 "JPEG") =
    imagick_GetImageHeight (Imagick := rasterEngine NoFault) (mkRaster 4 4 85 "JPEG") ∧
  Forall (λ l, ∀ h,
            forceLayout (engine := rasterEngine NoFault) l (h, mkRaster 4 4 85 "JPEG")
              (mkFrame emptyWorld []) =
              (inr (h, mkRaster 4 4 85 "JPEG"), mkFrame emptyWorld []) ∧
            convertPage (engine := rasterEngine NoFault) (zip := bufferZip NoFault)
              (mkConfig 300 85 "JPEG" l) 0%nat 0 (mkRaster 4 4 0 "") []
              (mkFrame emptyWorld []) =
            convertPage (engine := rasterEngine NoFault) (zip := bufferZip NoFault)
              (mkConfig 300 85 "JPEG" layoutTypeKeep) 0%nat 0 (mkRaster 4 4 0 "") []
              (mkFrame emptyWorld []))
         [layoutTypeLandscape; layoutTypePortrait].
Proof.
  split; [reflexivity|]. split; [reflexivity|]. split; [reflexivity|].
  exact (proj2 (proj2 (square_page_never_rotated (engine := rasterEngine NoFault)
           (zip := bufferZip NoFault) defaultConfig 0%nat 0 (mkRaster 4 4 0 "")
           (mkRaster 4 4 85 "") (mkRaster 4 4 85 "JPEG") [] (mkFrame emptyWorld [])
           (mkFrame emptyWorld []) eq_refl eq_refl eq_refl))).
Defined.

(** ** Wands and their release *)

Section Release.
Context {lib : GoLib} {engine : Imagick} {zip : ZipWriter}.

Lemma configuredCall_not_destroy cfg ops :
  Forall (configuredCall cfg) ops → Forall (λ e, isDestroy e = false) ops.
Proof. intros Hc. eapply Forall_impl; [exact Hc|]. by intros []. Qed.

End Release.


(** ** Failures *)

Section Failures.
Context {lib : GoLib} {engine : Imagick} {zip : ZipWriter}.

(** C6. A request whose parameters are rejected is answered 400 with a JSON
    error object and nothing else happens.  Otherwise the calls of the request
    are its working calls followed by the deferred [Destroy] calls, and either
    no working call failed and the answer is 200 with the archive, or exactly
    one failed, it is the last working call (the request stops there), and the
    answer is 500 with the JSON error object of that call's message, never an
    archive. *)
Theorem failure_aborts_request (r : Request) (w : World) :
  match resolve (URL_Query r) with
  | inl resp =>
    convertHandler r w = (resp, w) ∧ status resp = StatusBadRequest ∧
    ∃ msg, body resp = JSON [("error", msg)]
  | inr cfg =>
    ∃ ops,
      requestTrace r w = ops ++ map EvDestroy (rev (acquired ops)) ∧
      ((clean ops ∧ status (convertHandler r w).1 = StatusOK ∧
        ∃ zw, body (convertHandler r w).1 = Data zw) ∨
       (∃ pre e, ops = pre ++ [e] ∧ clean pre ∧ failed e = true ∧
                 status (convertHandler r w).1 = StatusInternalServerError ∧
                 body (convertHandler r w).1 = JSON [("error", failureMessage e)]))
  end.
Proof.
  destruct (resolve (URL_Query r)) as [resp|cfg] eqn:E.
  - split; [by apply convertHandler_invalid|].
    apply resolve_status in E as (Hs & msg & -> & _). split; [done|]. by exists msg.
  - destruct (requestTrace_valid r w cfg E) as (res & ops & Ht & Hr & _ & Ho & _ & Hok).
    exists ops. split; [done|]. rewrite Hr. destruct res as [resp|resp]; simpl in *.
    + right. destruct Ho as (pre & e & -> & Hpre & He & ->). by exists pre, e.
    + left. split; [done|]. by apply Hok.
Qed.

Lemma failed_call_decides r w e :
  e ∈ requestTrace r w → failed e = true →
  (convertHandler r w).1 = errorResponse StatusInternalServerError (failureMessage e).
Proof.
  intros Hin He. destruct (resolve (URL_Query r)) as [resp|cfg] eqn:E.
  - rewrite (requestTrace_invalid _ _ _ E) in Hin. by apply elem_of_nil in Hin.
  - destruct (requestTrace_valid r w cfg E) as (res & ops & Ht & Hr & _ & Ho & _).
    rewrite Ht in Hin. apply elem_of_app in Hin as [Hin|Hin]; cycle 1.
    { apply list_elem_of_fmap in Hin as (h & -> & _). discriminate. }
    rewrite Hr. destruct res as [resp|resp]; simpl in *.
    + destruct Ho as (pre & e' & -> & Hpre & _ & ->).
      apply elem_of_app in Hin as [Hin|Hin].
      * unfold clean in Hpre. rewrite Forall_forall in Hpre.
        rewrite (Hpre _ Hin) in He. discriminate.
      * apply list_elem_of_singleton in Hin. by subst.
    + unfold clean in Ho. rewrite Forall_forall in Ho.
      rewrite (Ho _ Hin) in He. discriminate.
Qed.

(** C10. When [GetImageBlob] fails for a page, the request is answered 500
    with the body "failed to set output format", which is also the body
    answered when [SetImageFormat] fails: the two failures give the same
    response. *)
Theorem blob_failure_reads_as_format_failure (r : Request) (w : World) :
  (∀ mwm, EvGetImageBlob mwm false ∈ requestTrace r w →
     (convertHandler r w).1 =
       errorResponse StatusInternalServerError "failed to set output format") ∧
  (∀ mwm f, EvSetImageFormat mwm f false ∈ requestTrace r w →
     (convertHandler r w).1 =
       errorResponse StatusInternalServerError "failed to set output format").
Proof.
  split.
  - intros mwm Hin. by apply (failed_call_decides r w _ Hin).
  - intros mwm f Hin. by apply (failed_call_decides r w _ Hin).
Qed.
End Failures.

(** The small engine failing in [GetImageBlob], and failing in
    [SetImageFormat]: the same response. *)
Lemma blob_failure_reads_as_format_failure_witness :
  EvGetImageBlob 2 false ∈
    requestTrace (lib := decimalLib) (engine := rasterEngine FailGetImageBlob)
      (zip := bufferZip FailGetImageBlob) (mkRequest ∅ (Some twoPages)) emptyWorld ∧
  EvSetImageFormat 2 "JPEG" false ∈
    requestTrace (lib := decimalLib) (engine := rasterEngine FailSetImageFormat)
      (zip := bufferZip FailSetImageFormat) (mkRequest ∅ (Some twoPages)) emptyWorld ∧
  (runHandler FailGetImageBlob (mkRequest ∅ (Some twoPages)) emptyWorld).1 =
    errorResponse StatusInternalServerError "failed to set output format" ∧
  (runHandler FailSetImageFormat (mkRequest ∅ (Some twoPages)) emptyWorld).1 =
    errorResponse StatusInternalServerError "failed to set output format".
Proof.
  assert (H1 : EvGetImageBlob 2 false ∈
    requestTrace (lib := decimalLib) (engine := rasterEngine FailGetImageBlob)
      (zip := bufferZip FailGetImageBlob) (mkRequest ∅ (Some twoPages)) emptyWorld).
  { apply list_elem_of_In. vm_compute. repeat (first [left; reflexivity | right]). }
  assert (H2 : EvSetImageFormat 2 "JPEG" false ∈
    requestTrace (lib := decimalLib) (engine := rasterEngine FailSetImageFormat)
      (zip := bufferZip FailSetImageFormat) (mkRequest ∅ (Some twoPages)) emptyWorld).
  { apply list_elem_of_In. vm_compute. repeat (first [left; reflexivity | right]). }
  split; [exact H1|]. split; [exact H2|]. split.
  - exact (proj1 (blob_failure_reads_as_format_failure (lib := decimalLib)
             (engine := rasterEngine FailGetImageBlob) (zip := bufferZip FailGetImageBlob)
             (mkRequest ∅ (Some twoPages)) emptyWorld) 2%nat H1).
  - exact (proj2 (blob_failure_reads_as_format_failure (lib := decimalLib)
             (engine := rasterEngine FailSetImageFormat) (zip := bufferZip FailSetImageFormat)
             (mkRequest ∅ (Some twoPages)) emptyWorld) 2%nat "JPEG" H2).
Defined.

(** ** Repeating a request *)

Section Determinism.
Context {lib : GoLib} {engine : Imagick} {zip : ZipWriter}.

Lemma pageLoop_result cfg imgs : ∀ page zw mw mw' f f',
  (pageLoop cfg mw page imgs zw f).1 = (pageLoop cfg mw' page imgs zw f').1.
Proof.
  induction imgs as [|img rest IH]; intros page zw mw mw' f f'; [reflexivity|].
  rewrite !pageLoop_cons.
  pose proof (convertPage_result cfg mw mw' page img zw
                (after f [EvNextImage mw true]) (after f' [EvNextImage mw' true])) as Hc.
  destruct (convertPage cfg mw page img zw _) as [r1 f1].
  destruct (convertPage cfg mw' page img zw _) as [r2 f2].
  simpl in Hc. subst r2. destruct r1 as [resp|zw1]; [reflexivity|apply IH].
Qed.

Lemma pipeline_result cfg r f f' : (pipeline cfg r f).1 = (pipeline cfg r f').1.
Proof.
  unfold pipeline, ReadAll, NewMagickWand, SetResolution, ReadImageBlob, zipClose,
    respond, emit, alloc, defer_Destroy, mbind, M_bind, mret, M_ret. simpl.
  destruct (Body_ReadAll r) as [blob|]; simpl; [|reflexivity].
  destruct (imagick_SetResolution _ _); simpl; [|reflexivity].
  destruct (imagick_ReadImageBlob _ _ blob) as [imgs|]; simpl; [|reflexivity].
  match goal with
  | |- (let (_, _) := pageLoop _ ?m _ _ _ ?F in _).1 =
       (let (_, _) := pageLoop _ ?m' _ _ _ ?F' in _).1 =>
    pose proof (pageLoop_result cfg imgs 0 [] m m' F F') as Hl;
    destruct (pageLoop cfg m 0 imgs [] F) as [r1 f1];
    destruct (pageLoop cfg m' 0 imgs [] F') as [r2 f2]
  end.
  simpl in Hl. subst r2. destruct r1 as [resp|zw]; [reflexivity|].
  by destruct (zip_Close zw).
Qed.

Lemma convertHandler_response r w w' : (convertHandler r w).1 = (convertHandler r w').1.
Proof.
  unfold convertHandler, handlerBody, lift, mbind, M_bind.
  destruct (resolve (URL_Query r)) as [resp|cfg]; [reflexivity|].
  pose proof (pipeline_result cfg r (mkFrame w []) (mkFrame w' [])) as Hp.
  destruct (pipeline cfg r (mkFrame w [])) as [r1 f1].
  destruct (pipeline cfg r (mkFrame w' [])) as [r2 f2].
  simpl in *. by subst r2.
Qed.

(** C8. With the library and the engine fixed, the response to a request
    does not depend on the world the handler is started in: running the same
    request again, in the world the first run left behind, gives the same
    response, hence an archive with as many entries under the same names. *)
Theorem conversion_repeatable (r : Request) (w w' : World) :
  (convertHandler r w').1 = (convertHandler r w).1 ∧
  (convertHandler r (convertHandler r w).2).1 = (convertHandler r w).1 ∧
  entryNames (convertHandler r (convertHandler r w).2).1 = entryNames (convertHandler r w).1 ∧
  length (entryNames (convertHandler r (convertHandler r w).2).1) =
    length (entryNames (convertHandler r w).1).
Proof.
  split; [apply convertHandler_response|].
  rewrite (convertHandler_response r (convertHandler r w).2 w). done.
Qed.
End Determinism.

(** * Further properties of the handler *)

(** ** The quality and the layout parameter, and what reaches the engine *)

Section MoreParameters.
Context {lib : GoLib} {engine : Imagick} {zip : ZipWriter}.

Lemma working_calls_configured r w cfg e :
  resolve (URL_Query r) = inr cfg → e ∈ requestTrace r w →
  isDestroy e = true ∨ configuredCall cfg e.
Proof.
  intros E Hin.
  destruct (requestTrace_valid r w cfg E) as (res & ops & Ht & _ & Hcalls & _).
  rewrite Ht in Hin. apply elem_of_app in Hin as [Hin|Hin].
  - right. rewrite Forall_forall in Hcalls. exact (Hcalls _ Hin).
  - left. by apply list_elem_of_fmap in Hin as (h & -> & _).
Qed.

Lemma rejected_request r w resp :
  resolve (URL_Query r) = inl resp →
  status (convertHandler r w).1 = StatusBadRequest ∧ (convertHandler r w).2 = w ∧
  requestTrace r w = [].
Proof.
  intros E. rewrite (convertHandler_invalid _ _ _ E). simpl.
  split; [by apply resolve_status in E as [E _]|]. split; [done|].
  by eapply requestTrace_invalid.
Qed.

(** X1. A non-empty quality value that [strconv.ParseUint] accepts resolves to
    the parsed number (as a [uint]), and every [SetImageCompressionQuality] of
    the request is given that number; one that [ParseUint] rejects makes the
    request fail with 400 before any call, with the body
    "invalid compression quality" once the density block has passed. *)
Theorem quality_parsed_or_rejected (r : Request) (w : World) (v : string) :
  Get (URL_Query r) "quality" = v → v ≠ "" →
  (∀ n, strconv_ParseUint v = Some n →
     parseQuality (URL_Query r) = inr (uint_of_uint64 n) ∧
     ((n < 2 ^ 64)%N → uint_of_uint64 n = n) ∧
     (∀ cfg, resolve (URL_Query r) = inr cfg → quality cfg = uint_of_uint64 n) ∧
     (∀ h q ok, EvSetImageCompressionQuality h q ok ∈ requestTrace r w →
                q = uint_of_uint64 n)) ∧
  (strconv_ParseUint v = None →
     parseQuality (URL_Query r) =
       inl (errorResponse StatusBadRequest "invalid compression quality") ∧
     status (convertHandler r w).1 = StatusBadRequest ∧
     (convertHandler r w).2 = w ∧
     requestTrace r w = [] ∧
     (∀ d, parseDensity (URL_Query r) = inr d →
        (convertHandler r w).1 =
          errorResponse StatusBadRequest "invalid compression quality")).
Proof.
  intros Hv Hne. split.
  - intros n Hp.
    assert (Hq : parseQuality (URL_Query r) = inr (uint_of_uint64 n)).
    { unfold parseQuality. rewrite Hv. by rewrite decide_False, Hp. }
    assert (Hcfg : ∀ cfg, resolve (URL_Query r) = inr cfg → quality cfg = uint_of_uint64 n).
    { intros cfg. unfold resolve. rewrite Hq. repeat case_match; intros; by simplify_eq. }
    split; [done|]. split; [intros Hn; unfold uint_of_uint64; by apply N.mod_small|].
    split; [done|].
    intros h q ok Hin. destruct (resolve (URL_Query r)) as [resp|cfg] eqn:E.
    + rewrite (requestTrace_invalid _ _ _ E) in Hin. by apply elem_of_nil in Hin.
    + destruct (working_calls_configured r w cfg _ E Hin) as [Hd|Hc]; [discriminate|].
      simpl in Hc. by rewrite Hc, (Hcfg cfg eq_refl).
  - intros Hp.
    assert (Hq : parseQuality (URL_Query r) =
                 inl (errorResponse StatusBadRequest "invalid compression quality")).
    { unfold parseQuality. rewrite Hv. by rewrite decide_False, Hp. }
    assert (∃ resp, resolve (URL_Query r) = inl resp) as [resp E].
    { unfold resolve. rewrite Hq. repeat case_match; by eexists. }
    split; [done|]. destruct (rejected_request r w resp E) as (Hs & Hw & Ht).
    split; [done|]. split; [done|]. split; [done|].
    intros d Hd. rewrite (convertHandler_invalid _ _ _ E). simpl.
    unfold resolve in E. rewrite Hd, Hq in E. by injection E.
Qed.

Lemma ToUpper_landscape : strings_ToUpper "landscape" = "LANDSCAPE".
Proof. by rewrite strings_ToUpper_ascii. Qed.

Lemma ToUpper_portrait : strings_ToUpper "portrait" = "PORTRAIT".
Proof. by rewrite strings_ToUpper_ascii. Qed.

Lemma ToUpper_keep : strings_ToUpper "keep" = "KEEP".
Proof. by rewrite strings_ToUpper_ascii. Qed.

Lemma canonicalLayouts_upper name L :
  (name, L) ∈ canonicalLayouts →
  strings_ToUpper name = L ∧
  (L = layoutTypeLandscape ∨ L = layoutTypePortrait ∨ L = layoutTypeKeep).
Proof.
  unfold canonicalLayouts. rewrite !elem_of_cons, elem_of_nil.
  intros [E|[E|[E|[]]]]; injection E as -> ->.
  - rewrite ToUpper_landscape. auto.
  - rewrite ToUpper_portrait. auto.
  - rewrite ToUpper_keep. auto.
Qed.

Lemma parseLayout_cases q :
  Get q "layout" = "" ∧ parseLayout q = inr layoutTypeKeep ∨
  Get q "layout" ≠ "" ∧
  ((strings_ToUpper (Get q "layout") = layoutTypeLandscape ∨
    strings_ToUpper (Get q "layout") = layoutTypePortrait ∨
    strings_ToUpper (Get q "layout") = layoutTypeKeep) ∧
   parseLayout q = inr (strings_ToUpper (Get q "layout")) ∨
   strings_ToUpper (Get q "layout") ≠ layoutTypeLandscape ∧
   strings_ToUpper (Get q "layout") ≠ layoutTypePortrait ∧
   strings_ToUpper (Get q "layout") ≠ layoutTypeKeep ∧
   parseLayout q = inl (errorResponse StatusBadRequest "invalid output layout")).
Proof.
  unfold parseLayout. destruct (decide (Get q "layout" = "")) as [E|Hne]; [by left|].
  right. split; [done|].
  destruct (decide (strings_ToUpper (Get q "layout") = layoutTypeLandscape)) as [E1|N1].
  { left. rewrite E1. split; [auto|reflexivity]. }
  destruct (decide (strings_ToUpper (Get q "layout") = layoutTypePortrait)) as [E2|N2].
  { left. rewrite E2. split; [auto|reflexivity]. }
  destruct (decide (strings_ToUpper (Get q "layout") = layoutTypeKeep)) as [E3|N3].
  { left. rewrite E3. split; [auto|reflexivity]. }
  right. rewrite !bool_decide_eq_true_2 by done. done.
Qed.

(** X2. A layout value equal, up to case, to "landscape", "portrait" or "keep"
    resolves to LANDSCAPE, PORTRAIT or KEEP.  Any other non-empty value is
    rejected by the layout block: the request is answered 400 before any
    call, with the body "invalid output layout" once the density, quality and
    format blocks, which come first, have passed. *)
Theorem layout_resolved_or_rejected (r : Request) (w : World) (v : string) :
  Get (URL_Query r) "layout" = v →
  (∀ name L, (name, L) ∈ canonicalLayouts → equalUpper v name →
     parseLayout (URL_Query r) = inr L ∧
     (∀ cfg, resolve (URL_Query r) = inr cfg → layout cfg = L)) ∧
  (v ≠ "" → ¬ equalUpper v "landscape" → ¬ equalUpper v "portrait" →
   ¬ equalUpper v "keep" →
     parseLayout (URL_Query r) = inl (errorResponse StatusBadRequest "invalid output layout") ∧
     status (convertHandler r w).1 = StatusBadRequest ∧
     (convertHandler r w).2 = w ∧
     requestTrace r w = [] ∧
     (∀ d n f, parseDensity (URL_Query r) = inr d → parseQuality (URL_Query r) = inr n →
               parseFormat (URL_Query r) = inr f →
        (convertHandler r w).1 = errorResponse StatusBadRequest "invalid output layout")).
Proof.
  intros <-. split.
  - intros name L Hin Heq. destruct (canonicalLayouts_upper _ _ Hin) as [HL HL3].
    unfold equalUpper in Heq. rewrite HL in Heq.
    assert (Hparse : parseLayout (URL_Query r) = inr L).
    { destruct (parseLayout_cases (URL_Query r)) as [[E _]|[_ [[_ Hp]|(N1 & N2 & N3 & _)]]].
      - rewrite E, ToUpper_empty in Heq. subst L. by destruct HL3 as [?|[?|?]].
      - by rewrite Hp, Heq.
      - rewrite Heq in N1, N2, N3. by destruct HL3 as [?|[?|?]]. }
    split; [done|]. intros cfg. unfold resolve. rewrite Hparse.
    repeat case_match; intros; by simplify_eq.
  - unfold equalUpper. rewrite ToUpper_landscape, ToUpper_portrait, ToUpper_keep.
    intros Hne H1 H2 H3.
    assert (Hparse : parseLayout (URL_Query r) =
                     inl (errorResponse StatusBadRequest "invalid output layout")).
    { destruct (parseLayout_cases (URL_Query r)) as [[E _]|[_ [[Hu _]|(_ & _ & _ & Hp)]]];
        try done. by destruct Hu as [?|[?|?]]. }
    assert (∃ resp, resolve (URL_Query r) = inl resp) as [resp E].
    { unfold resolve. rewrite Hparse. repeat case_match; by eexists. }
    split; [done|]. destruct (rejected_request r w resp E) as (Hs & Hw & Ht).
    split; [done|]. split; [done|]. split; [done|].
    intros d n f Hd Hq Hf. rewrite (convertHandler_invalid _ _ _ E). simpl.
    unfold resolve in E. rewrite Hd, Hq, Hf, Hparse in E. by injection E.
Qed.

Lemma resolve_validated q cfg :
  resolve q = inr cfg →
  format cfg ∈ ["JPEG"; "PNG"; "TIFF"] ∧
  formatExtension (format cfg) ∈ ["jpg"; "png"; "tiff"] ∧
  layout cfg ∈ [layoutTypeLandscape; layoutTypePortrait; layoutTypeKeep].
Proof.
  intros E. destruct (resolve_format _ _ E) as [ext Hext].
  assert (Hl : layout cfg ∈ [layoutTypeLandscape; layoutTypePortrait; layoutTypeKeep]).
  { revert E. unfold resolve.
    destruct (parseDensity q); [done|]. destruct (parseQuality q); [done|].
    destruct (parseFormat q); [done|].
    destruct (parseLayout_cases q) as [[_ ->]|[_ [[Hu ->]|(_ & _ & _ & ->)]]];
      intros [= <-]; simpl; rewrite !elem_of_cons; [auto|].
    destruct Hu as [-> | [-> | ->]]; auto. }
  unfold formatExtension. rewrite Hext. simpl.
  apply formatExtensionMap_Some in Hext as [[-> ->]|[[-> ->]|[-> ->]]];
    (split; [|split; [|exact Hl]]); rewrite !elem_of_cons; auto 10.
Qed.

(** X3. Only validated values reach the engine.  A configuration that passes the
    parameter blocks names one of the three formats, with its extension, and
    one of the three layouts; and whatever the request, every
    [SetImageFormat] it makes is given JPEG, PNG or TIFF. *)
Theorem engine_given_validated_values (r : Request) (w : World) :
  (∀ cfg, resolve (URL_Query r) = inr cfg →
     format cfg ∈ ["JPEG"; "PNG"; "TIFF"] ∧
     formatExtension (format cfg) ∈ ["jpg"; "png"; "tiff"] ∧
     layout cfg ∈ [layoutTypeLandscape; layoutTypePortrait; layoutTypeKeep]) ∧
  (∀ h f ok, EvSetImageFormat h f ok ∈ requestTrace r w → f ∈ ["JPEG"; "PNG"; "TIFF"]).
Proof.
  split; [intros cfg; apply resolve_validated|].
  intros h f ok Hin. destruct (resolve (URL_Query r)) as [resp|cfg] eqn:E.
  - rewrite (requestTrace_invalid _ _ _ E) in Hin. by apply elem_of_nil in Hin.
  - destruct (working_calls_configured r w cfg _ E Hin) as [Hd|Hc]; [discriminate|].
    simpl in Hc. rewrite Hc. by apply resolve_validated in E as [E _].
Qed.
End MoreParameters.

(** ** Early failures and the empty document *)

Section EarlyFailures.
Context {lib : GoLib} {engine : Imagick} {zip : ZipWriter}.

Ltac run_handler E :=
  unfold convertHandler, handlerBody, lift, mbind, M_bind; rewrite E;
  unfold pipeline, ReadAll, NewMagickWand, SetResolution, ReadImageBlob, zipClose,
    respond, emit, alloc, defer_Destroy, mbind, M_bind, mret, M_ret; simpl.

(** X5. A request with valid parameters that fails before the first page.  When
    the body cannot be read, the answer is 500 "failed to read request body"
    and no wand is created.  When the engine refuses the resolution, the
    answer is 500 "failed to set density", the input is not decoded, and the
    document wand is destroyed.  When the input does not decode, the answer
    is 500 "failed to read image", no page is visited, and the document wand
    is destroyed. *)
Theorem failure_before_first_page (r : Request) (w : World) (cfg : Config) :
  resolve (URL_Query r) = inr cfg →
  (Body_ReadAll r = None →
   convertHandler r w =
     (errorResponse StatusInternalServerError "failed to read request body",
      mkWorld (trace w ++ [EvReadAll false]) (fresh w))) ∧
  (∀ blob, Body_ReadAll r = Some blob →
     imagick_SetResolution (density cfg) (density cfg) = false →
     convertHandler r w =
       (errorResponse StatusInternalServerError "failed to set density",
        mkWorld (trace w ++ [EvReadAll true; EvNewMagickWand (fresh w);
                             EvSetResolution (fresh w) (density cfg) (density cfg) false;
                             EvDestroy (fresh w)])
                (S (fresh w)))) ∧
  (∀ blob, Body_ReadAll r = Some blob →
     imagick_SetResolution (density cfg) (density cfg) = true →
     imagick_ReadImageBlob (density cfg) (density cfg) blob = None →
     convertHandler r w =
       (errorResponse StatusInternalServerError "failed to read image",
        mkWorld (trace w ++ [EvReadAll true; EvNewMagickWand (fresh w);
                             EvSetResolution (fresh w) (density cfg) (density cfg) true;
                             EvReadImageBlob (fresh w) false;
                             EvDestroy (fresh w)])
                (S (fresh w)))).
Proof.
  intros E. split; [|split].
  - intros Hb. run_handler E. rewrite Hb. simpl.
    unfold run_deferred. simpl. by rewrite app_nil_r.
  - intros blob Hb Hres. run_handler E. rewrite Hb. simpl. rewrite Hres. simpl.
    unfold run_deferred. simpl. by rewrite <- !app_assoc.
  - intros blob Hb Hres Hread. run_handler E. rewrite Hb. simpl. rewrite Hres. simpl.
    rewrite Hread. simpl. unfold run_deferred. simpl. by rewrite <- !app_assoc.
Qed.

(** X6. A document that decodes to no page at all is not an error: the loop body
    never runs, the archive is closed at once, and the answer is 200 with an
    archive of no entries (500 "failed to close Zip archive" when the close
    fails); the document wand is destroyed either way. *)
Theorem empty_document (r : Request) (w : World) (cfg : Config) (blob : bytes) :
  resolve (URL_Query r) = inr cfg →
  Body_ReadAll r = Some blob →
  imagick_SetResolution (density cfg) (density cfg) = true →
  imagick_ReadImageBlob (density cfg) (density cfg) blob = Some [] →
  convertHandler r w =
    (if zip_Close [] then mkResponse StatusOK (Data [])
     else errorResponse StatusInternalServerError "failed to close Zip archive",
     mkWorld (trace w ++ [EvReadAll true; EvNewMagickWand (fresh w);
                          EvSetResolution (fresh w) (density cfg) (density cfg) true;
                          EvReadImageBlob (fresh w) true; EvResetIterator (fresh w);
                          EvNextImage (fresh w) false; EvZipClose (zip_Close []);
                          EvDestroy (fresh w)])
             (S (fresh w))).
Proof.
  intros E Hb Hres Hread. run_handler E. rewrite Hb. simpl. rewrite Hres. simpl.
  rewrite Hread. simpl. destruct (zip_Close []); simpl;
    unfold run_deferred; simpl; by rewrite <- !app_assoc.
Qed.
End EarlyFailures.

(** ** What the archive holds, and how many wands it costs *)

Section Contents.
Context {lib : GoLib} {engine : Imagick} {zip : ZipWriter}.

Ltac exec_page :=
  unfold convertPage, forceLayout, GetImage, MergeImageLayers,
    SetImageCompressionQuality, SetImageFormat, RotateImage, GetImageBlob,
    zipCreate, zipWrite, GetImageWidth, GetImageHeight,
    respond, emit, alloc, defer_Destroy, mbind, M_bind, mret, M_ret; simpl.

Ltac branch_page :=
  match goal with
  | |- context [decide ?P] => destruct (decide P)
  | |- context [(?a <? ?b)%N] => destruct (a <? b)%N eqn:?
  | |- context [imagick_SetImageCompressionQuality ?a ?b] =>
    destruct (imagick_SetImageCompressionQuality a b) eqn:?
  | |- context [imagick_SetImageFormat ?a ?b] =>
    destruct (imagick_SetImageFormat a b) eqn:?
  | |- context [imagick_RotateImage ?a ?b] =>
    destruct (imagick_RotateImage a b) eqn:?
  | |- context [imagick_GetImageBlob ?a] =>
    destruct (imagick_GetImageBlob a) eqn:?
  | |- context [zip_Create ?a ?b] => destruct (zip_Create a b) eqn:?
  | |- context [zip_Write ?a ?b ?c] => destruct (zip_Write a b c) eqn:?
  end; simpl.

Lemma convertPage_blob cfg mw page img zw f :
  match (convertPage cfg mw page img zw f).1 with
  | inr zw' =>
    ∃ out, pageBlob cfg img = Some out ∧ zw' = zw ++ [(entryName page (format cfg), out)]
  | inl _ => True
  end.
Proof.
  unfold pageBlob, pageImage, layoutImage. exec_page.
  repeat branch_page; try exact I; by eexists.
Qed.

Lemma runs_unique {A} (m : M A) f r r' ops ops' :
  runs m f r ops → runs m f r' ops' → r = r' ∧ ops = ops'.
Proof.
  unfold runs. intros -> [= -> Ht _ _]. split; [done|]. by apply app_inv_head in Ht.
Qed.

Lemma pageLoop_detail cfg mw imgs : ∀ page zw f,
  ∃ r ops,
    runs (pageLoop cfg mw page imgs zw) f r ops ∧
    (length (acquired ops) ≤ 2 * length imgs)%nat ∧
    (∀ zw', r = inr zw' →
       length (acquired ops) = (2 * length imgs)%nat ∧
       ∃ new, zw' = zw ++ new ∧ Forall2 (λ e img, pageBlob cfg img = Some e.2) new imgs).
Proof.
  induction imgs as [|img rest IH]; intros page zw f.
  - exists (inr zw), [EvNextImage mw false]. split; [reflexivity|]. split; [simpl; lia|].
    intros zw' [= <-]. split; [reflexivity|]. exists []. by rewrite app_nil_r.
  - destruct (convertPage_runs cfg mw page img zw (after f [EvNextImage mw true]))
      as (r1 & ops1 & Hr1 & _ & _ & Hacq1 & _).
    pose proof (convertPage_blob cfg mw page img zw (after f [EvNextImage mw true])) as Hb.
    unfold runs in *. rewrite pageLoop_cons, Hr1, after_app. rewrite Hr1 in Hb. simpl in Hb.
    destruct r1 as [resp|zw1].
    + exists (inl resp), ([EvNextImage mw true] ++ ops1). split; [reflexivity|].
      split; [simpl; rewrite Hacq1; simpl; lia|]. intros zw' [=].
    + destruct Hb as (out & Hout & ->).
      destruct (IH (int_incr page) (zw ++ [(entryName page (format cfg), out)])
                   (after f ([EvNextImage mw true] ++ ops1)))
        as (r2 & ops2 & Hr2 & Hle2 & Hok2).
      exists r2, (([EvNextImage mw true] ++ ops1) ++ ops2).
      split; [by rewrite Hr2, after_app|].
      rewrite !acquired_app, !length_app. simpl acquired. rewrite Hacq1. simpl.
      split; [lia|]. intros zw' ->. destruct (Hok2 zw' eq_refl) as (Hlen & new & -> & Hall).
      split; [lia|]. exists ((entryName page (format cfg), out) :: new).
      split; [by rewrite <- app_assoc|]. by constructor.
Qed.

Lemma pipeline_detail cfg r f blob imgs :
  Body_ReadAll r = Some blob →
  imagick_ReadImageBlob (density cfg) (density cfg) blob = Some imgs →
  ∃ res ops,
    runs (pipeline cfg r) f res ops ∧
    (length (acquired ops) ≤ 1 + 2 * length imgs)%nat ∧
    (∀ resp, res = inr resp →
       length (acquired ops) = (1 + 2 * length imgs)%nat ∧
       ∃ zw, resp = mkResponse StatusOK (Data zw) ∧
             Forall2 (λ e img, pageBlob cfg img = Some e.2) zw imgs).
Proof.
  intros Hbody Hread. unfold runs.
  unfold pipeline, ReadAll, NewMagickWand, SetResolution, ReadImageBlob, zipClose,
    respond, emit, alloc, defer_Destroy, mbind, M_bind, mret, M_ret. simpl.
  rewrite Hbody. simpl.
  destruct (imagick_SetResolution (density cfg) (density cfg)) eqn:Eres; simpl; cycle 1.
  { rewrite <- ?app_assoc; simpl.
    match goal with
    | |- ∃ r ops, (?R, mkFrame (mkWorld (_ ++ ?OPS) _) _) = _ ∧ _ => exists R, OPS
    end. split; [reflexivity|]. split; [simpl; lia|]. intros resp [=]. }
  rewrite Hread. simpl. rewrite <- ?app_assoc; simpl.
  set (pre := [EvReadAll true; EvNewMagickWand (fresh (world f));
               EvSetResolution (fresh (world f)) (density cfg) (density cfg) true;
               EvReadImageBlob (fresh (world f)) true; EvResetIterator (fresh (world f))]).
  match goal with |- context [pageLoop _ _ _ _ _ ?F] => change F with (after f pre) end.
  destruct (pageLoop_detail cfg (fresh (world f)) imgs 0 [] (after f pre))
    as (r1 & ops1 & Hr1 & Hle1 & Hok1).
  unfold runs in Hr1. rewrite Hr1, after_app.
  destruct r1 as [resp|zw].
  - exists (inl resp), (pre ++ ops1). split; [reflexivity|].
    rewrite acquired_app, length_app. simpl. split; [lia|]. intros resp' [=].
  - destruct (Hok1 zw eq_refl) as (Hlen & new & Hnew & Hall). simpl in Hnew. subst new.
    destruct (zip_Close zw) eqn:Eclose; simpl.
    + exists (inr (mkResponse StatusOK (Data zw))), ((pre ++ ops1) ++ [EvZipClose true]).
      split; [by rewrite <- after_app|].
      rewrite !acquired_app, !length_app. simpl. split; [lia|].
      intros resp [= <-]. split; [lia|]. by exists zw.
    + exists (inl (errorResponse StatusInternalServerError "failed to close Zip archive")),
        ((pre ++ ops1) ++ [EvZipClose false]).
      split; [by rewrite <- after_app|].
      rewrite !acquired_app, !length_app. simpl. split; [lia|]. intros resp [=].
Qed.

Lemma request_detail r w cfg blob imgs :
  resolve (URL_Query r) = inr cfg →
  Body_ReadAll r = Some blob →
  imagick_ReadImageBlob (density cfg) (density cfg) blob = Some imgs →
  ∃ res ops,
    convertHandler r w =
      (rendered res,
       mkWorld (trace w ++ ops ++ map EvDestroy (rev (acquired ops)))
               (length (acquired ops) + fresh w)%nat) ∧
    requestTrace r w = ops ++ map EvDestroy (rev (acquired ops)) ∧
    Forall (λ e, isDestroy e = false) ops ∧
    acquired ops = seq (fresh w) (length (acquired ops)) ∧
    (length (acquired ops) ≤ 1 + 2 * length imgs)%nat ∧
    (∀ resp, res = inl resp → status resp = StatusInternalServerError ∧
                              ∃ msg, body resp = JSON [("error", msg)]) ∧
    (∀ resp, res = inr resp →
       length (acquired ops) = (1 + 2 * length imgs)%nat ∧
       ∃ zw, resp = mkResponse StatusOK (Data zw) ∧
             Forall2 (λ e img, pageBlob cfg img = Some e.2) zw imgs).
Proof.
  intros E Hbody Hread.
  destruct (convertHandler_valid r w cfg E) as (res & ops & Hr & Hh & Hcalls & Ho & Hacq & _).
  destruct (pipeline_detail cfg r (mkFrame w []) blob imgs Hbody Hread)
    as (res' & ops' & Hr' & Hle & Hok).
  destruct (runs_unique _ _ _ _ _ _ Hr Hr') as [<- <-].
  exists res, ops. split; [done|].
  split; [unfold requestTrace; rewrite Hh; simpl; by rewrite drop_app_length|].
  split; [by eapply configuredCall_not_destroy|]. split; [done|]. split; [done|].
  split; [|done]. intros resp ->. destruct Ho as (pre & e & _ & _ & _ & ->).
  split; [done|]. by eexists.
Qed.

(** X7. The archive of a successful request holds, for every page of the
    document and in page order, the blob of that page alone: the page
    flattened, given the configured quality and format, turned as the layout
    asks, and serialized.  No entry depends on another page. *)
Theorem archive_holds_each_page (r : Request) (w : World) (cfg : Config) (blob : bytes)
    (imgs : list Image) :
  resolve (URL_Query r) = inr cfg →
  Body_ReadAll r = Some blob →
  imagick_ReadImageBlob (density cfg) (density cfg) blob = Some imgs →
  status (convertHandler r w).1 = StatusOK →
  ∃ zw, body (convertHandler r w).1 = Data zw ∧
        Forall2 (λ e img, pageBlob cfg img = Some e.2) zw imgs.
Proof.
  intros E Hbody Hread Hs.
  destruct (request_detail r w cfg blob imgs E Hbody Hread)
    as (res & ops & Hh & _ & _ & _ & _ & Hfail & Hok).
  rewrite Hh in Hs |- *. simpl in *. destruct res as [resp|resp]; simpl in *.
  - destruct (Hfail resp eq_refl) as [Hs' _]. rewrite Hs' in Hs. discriminate.
  - destruct (Hok resp eq_refl) as (_ & zw & -> & Hall). by exists zw.
Qed.

(** X8. One page that cannot be converted fails the whole document: when the
    flatten-quality-format-layout-serialize chain fails on some page, the
    answer is 500 with a JSON error object, whatever the other pages are; no
    page is skipped and no partial archive is answered. *)
Theorem bad_page_fails_document (r : Request) (w : World) (cfg : Config) (blob : bytes)
    (imgs : list Image) (img : Image) :
  resolve (URL_Query r) = inr cfg →
  Body_ReadAll r = Some blob →
  imagick_ReadImageBlob (density cfg) (density cfg) blob = Some imgs →
  img ∈ imgs → pageBlob cfg img = None →
  status (convertHandler r w).1 = StatusInternalServerError ∧
  ∃ msg, body (convertHandler r w).1 = JSON [("error", msg)].
Proof.
  intros E Hbody Hread Hin Hnone.
  destruct (request_detail r w cfg blob imgs E Hbody Hread)
    as (res & ops & Hh & _ & _ & _ & _ & Hfail & Hok).
  rewrite Hh. simpl. destruct res as [resp|resp]; simpl.
  - by apply Hfail.
  - destruct (Hok resp eq_refl) as (_ & zw & _ & Hall). exfalso.
    clear -Hall Hin Hnone. induction Hall as [|e i zw' imgs' He Hall IH].
    + by apply elem_of_nil in Hin.
    + apply elem_of_cons in Hin as [->|Hin]; [congruence|by apply IH].
Qed.


End Contents.

(** ** Entry names *)

Section Names.
Context {lib : GoLib} {engine : Imagick} {zip : ZipWriter}.

Lemma to_uint_nonnil (n : N) : N.to_uint n ≠ Decimal.Nil.
Proof. destruct n; [discriminate|apply DecimalPos.Unsigned.to_uint_nonnil]. Qed.

Lemma digits_read (n : N) : NilEmpty.uint_of_string (digits n) = Some (N.to_uint n).
Proof.
  unfold digits, NilZero.string_of_uint.
  pose proof (to_uint_nonnil n) as Hn.
  destruct (N.to_uint n) eqn:E; [done|..]; rewrite <- E; apply NilEmpty.usu.
Qed.

Lemma zeros_read (k : nat) (s : string) (d : Decimal.uint) :
  NilEmpty.uint_of_string s = Some d →
  N.of_uint <$> NilEmpty.uint_of_string (zeros k +:+ s) = Some (N.of_uint d).
Proof.
  intros Hs. induction k as [|k IH].
  - change (zeros 0 +:+ s) with s. by rewrite Hs.
  - change (zeros (S k) +:+ s) with (String "0" (zeros k +:+ s)). simpl.
    destruct (NilEmpty.uint_of_string (zeros k +:+ s)) as [u|]; [|done].
    simpl in *. by injection IH as <-.
Qed.

Lemma Sprintf_04d_inj (a b : Z) : 0 ≤ a → 0 ≤ b → Sprintf_04d a = Sprintf_04d b → a = b.
Proof.
  intros Ha Hb. unfold Sprintf_04d.
  rewrite (proj2 (Z.ltb_ge a 0)), (proj2 (Z.ltb_ge b 0)) by done.
  unfold pad0. intros E.
  pose proof (zeros_read (4 - String.length (digits (Z.to_N a))) _ _ (digits_read (Z.to_N a)))
    as Ra.
  pose proof (zeros_read (4 - String.length (digits (Z.to_N b))) _ _ (digits_read (Z.to_N b)))
    as Rb.
  rewrite E, Rb in Ra. injection Ra as Ra. rewrite !DecimalN.Unsigned.of_to in Ra. lia.
Qed.

Lemma append_same_length (s1 s2 t1 t2 : string) :
  String.length s1 = String.length s2 → s1 +:+ t1 = s2 +:+ t2 → s1 = s2 ∧ t1 = t2.
Proof.
  revert s2. induction s1 as [|c s1 IH]; intros [|c2 s2] Hl E; try discriminate.
  - done.
  - injection Hl as Hl. injection E as -> E. destruct (IH _ Hl E) as [-> ->]. done.
Qed.

Lemma length_append (s t : string) :
  String.length (s +:+ t) = (String.length s + String.length t)%nat.
Proof.
  induction s as [|c s IH]; [done|].
  change (String c s +:+ t) with (String c (s +:+ t)). simpl. by rewrite IH.
Qed.

Lemma append_cancel_r (s1 s2 t : string) : s1 +:+ t = s2 +:+ t → s1 = s2.
Proof.
  intros E. apply (append_same_length s1 s2 t t); [|done].
  pose proof (f_equal String.length E) as Hl. rewrite !length_append in Hl. lia.
Qed.

Lemma entryName_inj (fmt : string) (a b : Z) :
  0 ≤ a → 0 ≤ b → entryName a fmt = entryName b fmt → a = b.
Proof.
  intros Ha Hb E. unfold entryName in E. apply append_cancel_r in E.
  by apply Sprintf_04d_inj.
Qed.

(** X11. The entries of a successful archive have pairwise different names: an
    archive never holds two entries that would overwrite each other when it
    is unpacked. *)
Theorem entry_names_distinct (r : Request) (w : World) (cfg : Config) (blob : bytes)
    (imgs : list Image) :
  resolve (URL_Query r) = inr cfg →
  Body_ReadAll r = Some blob →
  imagick_ReadImageBlob (density cfg) (density cfg) blob = Some imgs →
  Z.of_nat (length imgs) ≤ 2 ^ 63 →
  status (convertHandler r w).1 = StatusOK →
  NoDup (entryNames (convertHandler r w).1).
Proof.
  intros E Hb Hd Hn Hs.
  destruct (convertHandler_archive r w cfg E Hs) as (blob' & imgs' & zw & Hb' & Hd' & Hr & Hz).
  rewrite Hb in Hb'. injection Hb' as <-. rewrite Hd in Hd'. injection Hd' as <-.
  rewrite Hr. unfold entryNames. simpl. rewrite Hz, pageNames_seq by lia.
  apply NoDup_fmap_2_strong; [|apply NoDup_ListNoDup, List.seq_NoDup].
  intros i j _ _ Hij. apply entryName_inj in Hij; lia.
Qed.

Lemma ascii_lt_trans (a b c : ascii) :
  Ascii.compare a b = Lt → Ascii.compare b c = Lt → Ascii.compare a c = Lt.
Proof. unfold Ascii.compare. rewrite !N.compare_lt_iff. lia. Qed.

Lemma string_lt_trans (s1 : string) : ∀ s2 s3,
  String.compare s1 s2 = Lt → String.compare s2 s3 = Lt → String.compare s1 s3 = Lt.
Proof.
  induction s1 as [|a s1 IH]; intros [|b s2] [|c s3]; simpl; try done.
  destruct (Ascii.compare a b) eqn:Eab; try done.
  - apply Ascii.compare_eq_iff in Eab as ->.
    destruct (Ascii.compare b c); try done. apply IH.
  - intros _. destruct (Ascii.compare b c) eqn:Ebc; try done.
    + apply Ascii.compare_eq_iff in Ebc as ->. by rewrite Eab.
    + by rewrite (ascii_lt_trans _ _ _ Eab Ebc).
Qed.

Lemma string_lt_append (s1 : string) : ∀ s2 t1 t2,
  String.length s1 = String.length s2 → String.compare s1 s2 = Lt →
  String.compare (s1 +:+ t1) (s2 +:+ t2) = Lt.
Proof.
  induction s1 as [|a s1 IH]; intros [|b s2] t1 t2 Hl; try done.
  injection Hl as Hl.
  change (String.compare (String a (s1 +:+ t1)) (String b (s2 +:+ t2)) = Lt) with
    (match Ascii.compare a b with
     | Eq => String.compare (s1 +:+ t1) (s2 +:+ t2) | ne => ne end = Lt).
  simpl. destruct (Ascii.compare a b); try done. by apply IH.
Qed.

Lemma checked_on_range (f : Z → bool) (n i : Z) :
  forallb f (seqZ 0 n) = true → 0 ≤ i < n → f i = true.
Proof.
  intros Hall Hi. rewrite forallb_forall in Hall. apply Hall.
  apply list_elem_of_In, elem_of_seqZ. lia.
Qed.

Lemma Sprintf_04d_width (i : Z) :
  0 ≤ i < 10000 → String.length (Sprintf_04d i) = 4%nat.
Proof.
  intros Hi. apply Nat.eqb_eq. apply (checked_on_range fourDigits 10000); [|done].
  vm_compute. reflexivity.
Qed.

Lemma Sprintf_04d_next (i : Z) :
  0 ≤ i < 9999 → String.compare (Sprintf_04d i) (Sprintf_04d (i + 1)) = Lt.
Proof.
  intros Hi.
  assert (Hb : beforeNext i = true).
  { apply (checked_on_range beforeNext 9999); [|done]. vm_compute. reflexivity. }
  unfold beforeNext in Hb. by destruct (String.compare _ _).
Qed.

Lemma Sprintf_04d_sorted (k : nat) : ∀ i,
  0 ≤ i → i + 1 + Z.of_nat k < 10000 →
  String.compare (Sprintf_04d i) (Sprintf_04d (i + 1 + Z.of_nat k)) = Lt.
Proof.
  induction k as [|k IH]; intros i H0 Hk.
  - rewrite Z.add_0_r. apply Sprintf_04d_next. lia.
  - apply (string_lt_trans _ (Sprintf_04d (i + 1 + Z.of_nat k))); [apply IH; lia|].
    replace (i + 1 + Z.of_nat (S k)) with (i + 1 + Z.of_nat k + 1) by lia.
    apply Sprintf_04d_next. lia.
Qed.

(** X12. Up to 10000 pages the names sort, as strings, in page order: the entry
    of an earlier page comes before the entry of every later page.  The
    padding is four columns wide, so from the 10001st page on this is lost:
    the entry of page 10000 sorts before the entry of page 9999. *)
Theorem entry_names_sorted (fmt : string) :
  (∀ i j, 0 ≤ i → i < j → j < 10000 →
     String.compare (entryName i fmt) (entryName j fmt) = Lt) ∧
  String.compare (entryName 10000 fmt) (entryName 9999 fmt) = Lt.
Proof.
  split.
  - intros i j H0 Hij Hj. unfold entryName. apply string_lt_append.
    + by rewrite !Sprintf_04d_width by lia.
    + replace j with (i + 1 + Z.of_nat (Z.to_nat (j - i - 1))) by lia.
      apply Sprintf_04d_sorted; lia.
  - unfold entryName.
    change (String.compare
              (String "1" ("0000" +:+ "." +:+ formatExtension fmt))
              (String "9" ("999" +:+ "." +:+ formatExtension fmt)) = Lt).
    reflexivity.
Qed.
End Names.

(** ** The orientation of the output *)

Section Orientation.
Context {lib : GoLib} {engine : Imagick} {zip : ZipWriter}.

Lemma layoutImage_orientation layout i i' :
  layoutImage layout i = Some i' →
  (layout = layoutTypeLandscape →
   (imagick_GetImageHeight i' ≤ imagick_GetImageWidth i')%N) ∧
  (layout = layoutTypePortrait →
   (imagick_GetImageWidth i' ≤ imagick_GetImageHeight i')%N) ∧
  (layout ≠ layoutTypeLandscape → layout ≠ layoutTypePortrait → i' = i).
Proof.
  unfold layoutImage.
  destruct (decide (layout = layoutTypeLandscape)) as [->|Hl].
  - destruct (imagick_GetImageWidth i <? imagick_GetImageHeight i)%N eqn:Hlt.
    + intros Hrot. apply N.ltb_lt in Hlt.
      apply imagick_RotateImage_quarter in Hrot as [-> ->].
      split; [intros _; lia|]. split; [discriminate|done].
    + intros [= <-]. apply N.ltb_ge in Hlt. split; [done|]. split; [discriminate|done].
  - destruct (decide (layout = layoutTypePortrait)) as [->|Hp].
    + destruct (imagick_GetImageHeight i <? imagick_GetImageWidth i)%N eqn:Hlt.
      * intros Hrot. apply N.ltb_lt in Hlt.
        apply imagick_RotateImage_quarter in Hrot as [-> ->].
        split; [done|]. split; [intros _; lia|done].
      * intros [= <-]. apply N.ltb_ge in Hlt. split; [done|]. split; [done|done].
    + intros [= <-]. done.
Qed.

Lemma forceLayout_layoutImage layout (mwm mwm' : Wand) f f' :
  forceLayout layout mwm f = (inr mwm', f') →
  mwm'.1 = mwm.1 ∧ layoutImage layout mwm.2 = Some mwm'.2.
Proof.
  unfold forceLayout, layoutImage, RotateImage, GetImageWidth, GetImageHeight,
    respond, emit, mbind, M_bind, mret, M_ret. simpl.
  destruct (decide (layout = layoutTypeLandscape)).
  - destruct (_ <? _)%N.
    + destruct (imagick_RotateImage mwm.2 (-90)%float); simpl; [|discriminate].
      by intros [= <- _].
    + by intros [= <- _].
  - destruct (decide (layout = layoutTypePortrait)).
    + destruct (_ <? _)%N.
      * destruct (imagick_RotateImage mwm.2 (-90)%float); simpl; [|discriminate].
        by intros [= <- _].
      * by intros [= <- _].
    + by intros [= <- _].
Qed.

(** X9. The layout is a guarantee on the output, not only a rule for rotating.
    When the layout switch returns, the wand is the same wand, and under
    LANDSCAPE its image is at least as wide as tall, under PORTRAIT at least
    as tall as wide.  So in every successful archive made under LANDSCAPE
    each page was serialized from an image at least as wide as tall, and
    under PORTRAIT from one at least as tall as wide. *)
Theorem output_orientation (r : Request) (w : World) (cfg : Config) (blob : bytes)
    (imgs : list Image) :
  (∀ l (mwm mwm' : Wand) f f',
     forceLayout l mwm f = (inr mwm', f') →
     mwm'.1 = mwm.1 ∧
     (l = layoutTypeLandscape → (GetImageHeight mwm' ≤ GetImageWidth mwm')%N) ∧
     (l = layoutTypePortrait → (GetImageWidth mwm' ≤ GetImageHeight mwm')%N)) ∧
  (resolve (URL_Query r) = inr cfg →
   Body_ReadAll r = Some blob →
   imagick_ReadImageBlob (density cfg) (density cfg) blob = Some imgs →
   status (convertHandler r w).1 = StatusOK →
   Forall (λ img, ∃ i,
             pageImage cfg img = Some i ∧
             pageBlob cfg img = imagick_GetImageBlob i ∧
             (layout cfg = layoutTypeLandscape →
              (imagick_GetImageHeight i ≤ imagick_GetImageWidth i)%N) ∧
             (layout cfg = layoutTypePortrait →
              (imagick_GetImageWidth i ≤ imagick_GetImageHeight i)%N))
          imgs).
Proof.
  split.
  - intros l mwm mwm' f f' Hf.
    destruct (forceLayout_layoutImage _ _ _ _ _ Hf) as [Hh Hl].
    destruct (layoutImage_orientation _ _ _ Hl) as (HL & HP & _).
    unfold GetImageWidth, GetImageHeight. done.
  - intros E Hbody Hread Hs.
    destruct (request_detail r w cfg blob imgs E Hbody Hread)
      as (res & ops & Hh & _ & _ & _ & _ & Hfail & Hok).
    rewrite Hh in Hs. simpl in Hs. destruct res as [resp|resp]; simpl in Hs.
    { destruct (Hfail resp eq_refl) as [Hs' _]. rewrite Hs' in Hs. discriminate. }
    destruct (Hok resp eq_refl) as (_ & zw & _ & Hall).
    clear -Hall. induction Hall as [|e img zw' imgs' He Hall IH]; constructor; [|done].
    unfold pageBlob in He |- *. unfold pageImage in *.
    destruct (imagick_SetImageCompressionQuality _ _) as [i1|]; [|done].
    destruct (imagick_SetImageFormat i1 _) as [i2|]; [|done].
    destruct (layoutImage (layout cfg) i2) as [i|] eqn:El; [|done].
    exists i. split; [done|]. split; [done|].
    destruct (layoutImage_orientation _ _ _ El) as (HL & HP & _). done.
Qed.
End Orientation.

(** ** Repeated values and unknown keys *)

Section QueryShape.
Context {lib : GoLib} {engine : Imagick} {zip : ZipWriter}.

Lemma Get_first_value (q : Values) k v vs k' :
  Get (<[k := v :: vs]> q) k' = Get (<[k := [v]]> q) k'.
Proof.
  destruct (decide (k = k')) as [->|Hne].
  - by rewrite !Get_insert_eq.
  - by rewrite !Get_insert_ne.
Qed.

Lemma resolve_unknown_key (q : Values) k vs :
  k ∉ recognized → resolve (<[k := vs]> q) = resolve q.
Proof.
  unfold recognized. rewrite !not_elem_of_cons. intros (Hd & Hq & Hf & Hl & _).
  unfold resolve, parseDensity, parseQuality, parseFormat, parseLayout.
  by rewrite !Get_insert_ne.
Qed.

(** X4. The handler reads the first value of each of its four keys and nothing
    else of the query: further values of a repeated key are never looked at,
    and a key it does not know changes neither the configuration nor the
    answer. *)
Theorem query_read_by_first_value (q : Values) (k v : string) (vs : list string) :
  (resolve (<[k := v :: vs]> q) = resolve (<[k := [v]]> q) ∧
   ∀ b w, convertHandler (mkRequest (<[k := v :: vs]> q) b) w =
          convertHandler (mkRequest (<[k := [v]]> q) b) w) ∧
  (k ∉ recognized →
   resolve (<[k := v :: vs]> q) = resolve q ∧
   ∀ b w, convertHandler (mkRequest (<[k := v :: vs]> q) b) w =
          convertHandler (mkRequest q b) w).
Proof.
  assert (H1 : resolve (<[k := v :: vs]> q) = resolve (<[k := [v]]> q)).
  { apply resolve_Get. intros k'. apply Get_first_value. }
  split; [split; [done|intros b w; by apply convertHandler_query]|].
  intros Hk. pose proof (resolve_unknown_key q k (v :: vs) Hk) as H2.
  split; [done|]. intros b w. by apply convertHandler_query.
Qed.
End QueryShape.

(** ** Closed instances *)

(** [quality=7] reaches the configuration as 7; [quality=high] is answered
    400 "invalid compression quality". *)
Lemma quality_parsed_or_rejected_witness :
  (Get {["quality" := ["7"]]} "quality" = "7" ∧ "7" ≠ "" ∧
   parseQuality (lib := decimalLib) {["quality" := ["7"]]} = inr 7%N) ∧
  (Get {["quality" := ["high"]]} "quality" = "high" ∧ "high" ≠ "" ∧
   strconv_ParseUint (GoLib := decimalLib) "high" = None ∧
   (runHandler NoFault (mkRequest {["quality" := ["high"]]} (Some twoPages)) emptyWorld).1 =
     errorResponse StatusBadRequest "invalid compression quality").
Proof.
  split.
  - split; [reflexivity|]. split; [discriminate|].
    exact (proj1 (proj1 (quality_parsed_or_rejected (lib := decimalLib)
             (engine := rasterEngine NoFault) (zip := bufferZip NoFault)
             (mkRequest {["quality" := ["7"]]} (Some twoPages)) emptyWorld "7"
             eq_refl ltac:(discriminate)) 7%N eq_refl)).
  - split; [reflexivity|]. split; [discriminate|]. split; [reflexivity|].
    exact (proj2 (proj2 (proj2 (proj2 (proj2 (quality_parsed_or_rejected (lib := decimalLib)
             (engine := rasterEngine NoFault) (zip := bufferZip NoFault)
             (mkRequest {["quality" := ["high"]]} (Some twoPages)) emptyWorld "high"
             eq_refl ltac:(discriminate)) eq_refl)))) 300%float eq_refl).
Defined.

(** [layout=Portrait] resolves to PORTRAIT; [layout=sideways] is answered
    400 "invalid output layout". *)
Lemma layout_resolved_or_rejected_witness :
  (Get {["layout" := ["Portrait"]]} "layout" = "Portrait" ∧
   equalUpper (lib := decimalLib) "Portrait" "portrait" ∧
   parseLayout (lib := decimalLib) {["layout" := ["Portrait"]]} = inr layoutTypePortrait) ∧
  (Get {["layout" := ["sideways"]]} "layout" = "sideways" ∧ "sideways" ≠ "" ∧
   ¬ equalUpper (lib := decimalLib) "sideways" "landscape" ∧
   ¬ equalUpper (lib := decimalLib) "sideways" "portrait" ∧
   ¬ equalUpper (lib := decimalLib) "sideways" "keep" ∧
   (runHandler NoFault (mkRequest {["layout" := ["sideways"]]} (Some twoPages))
      emptyWorld).1 = errorResponse StatusBadRequest "invalid output layout").
Proof.
  pose proof (layout_resolved_or_rejected (lib := decimalLib) (engine := rasterEngine NoFault)
    (zip := bufferZip NoFault) (mkRequest {["layout" := ["Portrait"]]} (Some twoPages))
    emptyWorld "Portrait" eq_refl) as [Hacc _].
  pose proof (layout_resolved_or_rejected (lib := decimalLib) (engine := rasterEngine NoFault)
    (zip := bufferZip NoFault) (mkRequest {["layout" := ["sideways"]]} (Some twoPages))
    emptyWorld "sideways" eq_refl) as [_ Hrej].
  assert (H1 : ¬ equalUpper (lib := decimalLib) "sideways" "landscape")
    by (vm_compute; discriminate).
  assert (H2 : ¬ equalUpper (lib := decimalLib) "sideways" "portrait")
    by (vm_compute; discriminate).
  assert (H3 : ¬ equalUpper (lib := decimalLib) "sideways" "keep")
    by (vm_compute; discriminate).
  split.
  - split; [reflexivity|]. split; [reflexivity|].
    refine (proj1 (Hacc "portrait" layoutTypePortrait _ eq_refl)).
    unfold canonicalLayouts. rewrite !elem_of_cons. right; left; reflexivity.
  - split; [reflexivity|]. split; [discriminate|]. do 3 (split; [assumption|]).
    destruct (Hrej ltac:(discriminate) H1 H2 H3) as (_ & _ & _ & _ & Hbody).
    exact (Hbody 300%float 85%N "JPEG" eq_refl eq_refl eq_refl).
Defined.

(** An unreadable body under the default parameters. *)
Lemma failure_before_first_page_witness :
  resolve (lib := decimalLib) ∅ = inr defaultConfig ∧
  runHandler NoFault (mkRequest ∅ None) emptyWorld =
    (errorResponse StatusInternalServerError "failed to read request body",
     mkWorld [EvReadAll false] 0).
Proof.
  split; [reflexivity|].
  exact (proj1 (failure_before_first_page (lib := decimalLib) (engine := rasterEngine NoFault)
           (zip := bufferZip NoFault) (mkRequest ∅ None) emptyWorld defaultConfig eq_refl)
           eq_refl).
Defined.

(** The empty input on the lenient engine: 200 with an archive of no
    entries. *)
Lemma empty_document_witness :
  resolve (lib := decimalLib) ∅ = inr defaultConfig ∧
  imagick_SetResolution (Imagick := lenientEngine) 300 300 = true ∧
  imagick_ReadImageBlob (Imagick := lenientEngine) 300 300 [] = Some [] ∧
  convertHandler (lib := decimalLib) (engine := lenientEngine) (zip := bufferZip NoFault)
    (mkRequest ∅ (Some [])) emptyWorld =
    (mkResponse StatusOK (Data []),
     mkWorld [EvReadAll true; EvNewMagickWand 0; EvSetResolution 0 300 300 true;
              EvReadImageBlob 0 true; EvResetIterator 0; EvNextImage 0 false;
              EvZipClose true; EvDestroy 0] 1).
Proof.
  split; [reflexivity|]. split; [reflexivity|]. split; [reflexivity|].
  exact (empty_document (lib := decimalLib) (engine := lenientEngine)
           (zip := bufferZip NoFault) (mkRequest ∅ (Some [])) emptyWorld defaultConfig []
           eq_refl eq_refl eq_refl eq_refl).
Defined.

(** The two-page document under the defaults on the small engine. *)
Lemma archive_holds_each_page_witness :
  resolve (lib := decimalLib) ∅ = inr defaultConfig ∧
  imagick_ReadImageBlob (Imagick := rasterEngine NoFault) 300 300 twoPages =
    Some [mkRaster 5 8 0 ""; mkRaster 4 4 0 ""] ∧
  status (runHandler NoFault (mkRequest ∅ (Some twoPages)) emptyWorld).1 = StatusOK ∧
  ∃ zw, body (runHandler NoFault (mkRequest ∅ (Some twoPages)) emptyWorld).1 = Data zw ∧
        Forall2 (λ e img, pageBlob (engine := rasterEngine NoFault) defaultConfig img =
                          Some e.2)
                zw [mkRaster 5 8 0 ""; mkRaster 4 4 0 ""].
Proof.
  assert (Hcfg : resolve (lib := decimalLib) ∅ = inr defaultConfig) by reflexivity.
  assert (Himgs : imagick_ReadImageBlob (Imagick := rasterEngine NoFault) 300 300 twoPages =
                  Some [mkRaster 5 8 0 ""; mkRaster 4 4 0 ""]) by reflexivity.
  assert (Hok : status (runHandler NoFault (mkRequest ∅ (Some twoPages)) emptyWorld).1 =
                StatusOK) by reflexivity.
  split; [exact Hcfg|]. split; [exact Himgs|]. split; [exact Hok|].
  exact (archive_holds_each_page (lib := decimalLib) (engine := rasterEngine NoFault)
           (zip := bufferZip NoFault) (mkRequest ∅ (Some twoPages)) emptyWorld
           defaultConfig twoPages [mkRaster 5 8 0 ""; mkRaster 4 4 0 ""]
           Hcfg eq_refl Himgs Hok).
Defined.

(** The small engine failing to serialize: the first page cannot be
    converted, and the request is answered 500. *)
Lemma bad_page_fails_document_witness :
  resolve (lib := decimalLib) ∅ = inr defaultConfig ∧
  imagick_ReadImageBlob (Imagick := rasterEngine FailGetImageBlob) 300 300 twoPages =
    Some [mkRaster 5 8 0 ""; mkRaster 4 4 0 ""] ∧
  pageBlob (engine := rasterEngine FailGetImageBlob) defaultConfig (mkRaster 5 8 0 "") =
    None ∧
  status (runHandler FailGetImageBlob (mkRequest ∅ (Some twoPages)) emptyWorld).1 =
    StatusInternalServerError.
Proof.
  assert (Hcfg : resolve (lib := decimalLib) ∅ = inr defaultConfig) by reflexivity.
  assert (Himgs : imagick_ReadImageBlob (Imagick := rasterEngine FailGetImageBlob)
                    300 300 twoPages = Some [mkRaster 5 8 0 ""; mkRaster 4 4 0 ""])
    by reflexivity.
  assert (Hbad : pageBlob (engine := rasterEngine FailGetImageBlob) defaultConfig
                   (mkRaster 5 8 0 "") = None) by reflexivity.
  split; [exact Hcfg|]. split; [exact Himgs|]. split; [exact Hbad|].
  refine (proj1 (bad_page_fails_document (lib := decimalLib)
           (engine := rasterEngine FailGetImageBlob) (zip := bufferZip FailGetImageBlob)
           (mkRequest ∅ (Some twoPages)) emptyWorld defaultConfig twoPages
           [mkRaster 5 8 0 ""; mkRaster 4 4 0 ""] (mkRaster 5 8 0 "")
           Hcfg eq_refl Himgs _ Hbad)).
  rewrite elem_of_cons. left; reflexivity.
Defined.


(** The two names of the two-page archive differ. *)
Lemma entry_names_distinct_witness :
  resolve (lib := decimalLib) ∅ = inr defaultConfig ∧
  imagick_ReadImageBlob (Imagick := rasterEngine NoFault) 300 300 twoPages =
    Some [mkRaster 5 8 0 ""; mkRaster 4 4 0 ""] ∧
  (Z.of_nat 2 ≤ 2 ^ 63) ∧
  status (runHandler NoFault (mkRequest ∅ (Some twoPages)) emptyWorld).1 = StatusOK ∧
  NoDup (entryNames (runHandler NoFault (mkRequest ∅ (Some twoPages)) emptyWorld).1).
Proof.
  assert (Hcfg : resolve (lib := decimalLib) ∅ = inr defaultConfig) by reflexivity.
  assert (Himgs : imagick_ReadImageBlob (Imagick := rasterEngine NoFault) 300 300 twoPages =
                  Some [mkRaster 5 8 0 ""; mkRaster 4 4 0 ""]) by reflexivity.
  assert (Hn : Z.of_nat 2 ≤ 2 ^ 63) by (vm_compute; discriminate).
  assert (Hok : status (runHandler NoFault (mkRequest ∅ (Some twoPages)) emptyWorld).1 =
                StatusOK) by reflexivity.
  split; [exact Hcfg|]. split; [exact Himgs|]. split; [exact Hn|]. split; [exact Hok|].
  exact (entry_names_distinct (lib := decimalLib) (engine := rasterEngine NoFault)
           (zip := bufferZip NoFault) (mkRequest ∅ (Some twoPages)) emptyWorld
           defaultConfig twoPages [mkRaster 5 8 0 ""; mkRaster 4 4 0 ""]
           Hcfg eq_refl Himgs Hn Hok).
Defined.

(** [layout=landscape] on the two-page document: the page of 5 by 8 is
    serialized as 8 by 5, the square page as it is. *)
Lemma output_orientation_witness :
  resolve (lib := decimalLib) {["layout" := ["landscape"]]} =
    inr (mkConfig 300 85 "JPEG" layoutTypeLandscape) ∧
  status (runHandler NoFault (mkRequest {["layout" := ["landscape"]]} (Some twoPages))
            emptyWorld).1 = StatusOK ∧
  Forall (λ img, ∃ i,
            pageImage (engine := rasterEngine NoFault)
              (mkConfig 300 85 "JPEG" layoutTypeLandscape) img = Some i ∧
            pageBlob (engine := rasterEngine NoFault)
              (mkConfig 300 85 "JPEG" layoutTypeLandscape) img =
              imagick_GetImageBlob (Imagick := rasterEngine NoFault) i ∧
            (layoutTypeLandscape = layoutTypeLandscape →
             (raster_height i ≤ raster_width i)%N) ∧
            (layoutTypeLandscape = layoutTypePortrait →
             (raster_width i ≤ raster_height i)%N))
         [mkRaster 5 8 0 ""; mkRaster 4 4 0 ""].
Proof.
  assert (Hcfg : resolve (lib := decimalLib) {["layout" := ["landscape"]]} =
                 inr (mkConfig 300 85 "JPEG" layoutTypeLandscape)) by reflexivity.
  assert (Hok : status (runHandler NoFault
                  (mkRequest {["layout" := ["landscape"]]} (Some twoPages)) emptyWorld).1 =
                StatusOK) by reflexivity.
  split; [exact Hcfg|]. split; [exact Hok|].
  exact (proj2 (output_orientation (lib := decimalLib) (engine := rasterEngine NoFault)
           (zip := bufferZip NoFault)
           (mkRequest {["layout" := ["landscape"]]} (Some twoPages)) emptyWorld
           (mkConfig 300 85 "JPEG" layoutTypeLandscape) twoPages
           [mkRaster 5 8 0 ""; mkRaster 4 4 0 ""]) Hcfg eq_refl eq_refl Hok).
Defined.
